(** * Symphony Labs storefront: checkout and payment settlement

    A shallow embedding of the checkout / payment orchestration code of the
    storefront (Next.js route handlers, the payment screen component and the
    scheduled shipping-notification script), with the properties of the
    natural-language specification stated and settled against it.

    Conventions of the embedding:
    - a JavaScript [number] holding money is a binary64 [float] (Rocq's
      primitive floats), so rounding, [NaN] and signed zeros are those of the
      running code; a number that the schema or the database constrains to an
      integer (stock, quantity, usage counters, timestamps in milliseconds)
      is a [Z];
    - an optional / nullable field is an [option];
    - the datastore is a record of finite maps keyed by primary key; every
      call to it (and to the mailer or the payment gateway) can fail, which
      the handlers see as the [error] component of the reply: the outcome of
      each call is an input of the model (a record of fault flags);
    - a route handler is a function from the request, the faults and the
      datastore to a response and the new datastore. *)

From Stdlib Require Import Floats ZArith Bool List.
From stdpp Require Import gmap strings list pretty sorting.
Import ListNotations.

Set Warnings "-inexact-float".

#[local] Open Scope string_scope.
#[local] Open Scope Z_scope.

(* ===================================================================== *)
(** * JavaScript values used by the code *)
(* ===================================================================== *)

Module Js.

(** Truthiness of a number: [0], [-0] and [NaN] are falsy. *)
Definition truthy_number (x : float) : bool :=
  negb (PrimFloat.is_zero x || PrimFloat.is_nan x).

(** Truthiness of an optional (possibly [null] / [undefined]) number. *)
Definition truthy_opt_number (x : option float) : bool :=
  match x with
  | Some v => truthy_number v
  | None => false
  end.

(** Truthiness of an optional integer. *)
Definition truthy_opt_int (x : option Z) : bool :=
  match x with
  | Some v => negb (v =? 0)
  | None => false
  end.

(** [Math.min(a, b)]: [NaN] if either argument is [NaN]; [-0] is smaller
    than [+0]. *)
Definition Math_min (a b : float) : float :=
  if PrimFloat.is_nan a || PrimFloat.is_nan b then PrimFloat.nan
  else if PrimFloat.ltb a b then a
  else if PrimFloat.ltb b a then b
  else if PrimFloat.get_sign a then a else b.

(** [Math.abs]. *)
Definition Math_abs (a : float) : float := PrimFloat.abs a.

(** [x ?? d]. *)
Definition nullish {A} (x : option A) (d : A) : A :=
  match x with
  | Some v => v
  | None => d
  end.

(** The number an integer denotes (exact below 2^53). *)
Definition number_of_Z (z : Z) : float :=
  if 0 <=? z then PrimFloat.of_uint63 (Uint63.of_Z z)
  else PrimFloat.opp (PrimFloat.of_uint63 (Uint63.of_Z (- z))).

(** A [Date]: either a time value in milliseconds or an invalid date
    (whose time value is [NaN], so every comparison with it is false). *)
Inductive Date :=
| InvalidDate
| Time (ms : Z).

(** [a < b] on dates. *)
Definition date_lt (a b : Date) : bool :=
  match a, b with
  | Time x, Time y => x <? y
  | _, _ => false
  end.

(** [arr.includes(x)] on an array of strings. *)
Definition includes (arr : list string) (x : string) : bool :=
  existsb (String.eqb x) arr.

(** [arr.some(p)]. *)
Definition some {A} (p : A -> bool) (arr : list A) : bool := existsb p arr.

End Js.

(* ===================================================================== *)
(** * Coupon evaluator ([validateCoupon] of lib/supabase) *)
(* ===================================================================== *)

Module Coupon.

Inductive DiscountType := percentage | fixed.
Inductive ApplicableTo := all | specific.

Record Coupon := {
  id : string;
  code : string;
  discount_type : DiscountType;
  discount_value : float;
  minimum_order_amount : option float;
  max_uses : option Z;
  current_uses : Z;
  one_per_customer : bool;
  valid_from : Js.Date;            (* new Date(coupon.valid_from) *)
  valid_until : option Js.Date;    (* absent, or new Date(coupon.valid_until) *)
  active : bool;
  applicable_to : ApplicableTo;
  product_ids : option (list string)
}.

(** The returned object [{ valid, error?, discount? }]. *)
Record Result := {
  valid : bool;
  error : option string;
  discount : option float
}.

Definition invalid (msg : string) : Result :=
  {| valid := false; error := Some msg; discount := None |}.

Section Evaluator.

(** [n.toFixed(2)], the decimal rendering used in one error message. *)
Variable toFixed2 : float -> string.

(** [now] is the value of [new Date()] at the call. *)
Definition validateCoupon (now : Z) (coupon : Coupon) (orderTotal : float)
    (customerEmail : option string) (cartProductIds : option (list string))
    : Result :=
  if negb (active coupon) then invalid "This coupon is not active"
  else if Js.date_lt (Js.Time now) (valid_from coupon)
  then invalid "This coupon is not yet valid"
  else if match valid_until coupon with
          | Some validUntil => Js.date_lt validUntil (Js.Time now)
          | None => false
          end
  then invalid "This coupon has expired"
  else if Js.truthy_opt_int (max_uses coupon)
          && (Js.nullish (max_uses coupon) 0 <=? current_uses coupon)
  then invalid "This coupon has reached its usage limit"
  else if Js.truthy_opt_number (minimum_order_amount coupon)
          && PrimFloat.ltb orderTotal
               (Js.nullish (minimum_order_amount coupon) PrimFloat.zero)
  then invalid ("Minimum order amount of $"
                ++ toFixed2 (Js.nullish (minimum_order_amount coupon) PrimFloat.zero)
                ++ " required")
  else if match applicable_to coupon, product_ids coupon, cartProductIds with
          | specific, Some pids, Some cart =>
              negb (Js.some (fun i => Js.includes pids i) cart)
          | _, _, _ => false
          end
  then invalid "This coupon is not applicable to items in your cart"
  else
    let discount :=
      match discount_type coupon with
      | percentage =>
          PrimFloat.div (PrimFloat.mul orderTotal (discount_value coupon))
                        100%float
      | fixed => discount_value coupon
      end in
    let discount := Js.Math_min discount orderTotal in
    {| valid := true; error := None; discount := Some discount |}.

End Evaluator.

End Coupon.

(* ===================================================================== *)
(** * The datastore: products and orders tables *)
(* ===================================================================== *)

(** A selected modifier of a line item. *)
Module Modifier.
Record t := {
  groupId : string;
  groupLabel : string;
  optionId : string;
  optionLabel : string;
  priceAdjustment : float
}.
End Modifier.

(** A line item of an order ([orderItemSchema]; the [OrderItem] of the
    settlement endpoint reads [id], [quantity] and [name] of the same JSON). *)
Module Item.
Record t := {
  id : string;
  name : string;
  price : float;
  quantity : Z;
  selectedModifiers : option (list Modifier.t)
}.
End Item.

Module Product.
Record t := {
  name : string;
  price : float;
  stock : Z
}.

Definition with_stock (newStock : Z) (p : t) : t :=
  {| name := name p; price := price p; stock := newStock |}.
End Product.

Module Address.
Record t := {
  name : string;
  email : option string;
  addressLine1 : string;
  addressLine2 : string;
  city : string;
  state : string;
  zip : string;
  country : string;
  phone : option string
}.
End Address.

(** A row of the [orders] table; its primary key [id] is the key under which
    the table holds it. *)
Module Order.
Record t := {
  order_number : string;
  payment_method : string;
  status : string;
  total_amount : float;
  items : list Item.t;
  shipping_name : string;
  shipping_email : option string;
  shipping_address_line1 : string;
  shipping_address_line2 : string;
  shipping_city : string;
  shipping_state : string;
  shipping_zip : string;
  shipping_country : string;
  shipping_phone : option string;
  shipping_cost : option float;
  coupon_code : option string;
  coupon_discount : option float;
  btcpay_invoice_id : option string;
  paid_at : option Z;
  tracking_number : option string;
  shipping_tracking_url : option string;
  shipping_notification_scheduled_at : option Z;
  shipping_notification_sent_at : option Z
}.

(** [update({ status: "paid", paid_at: ... })]. *)
Definition mark_paid (now : Z) (o : t) : t :=
  {| order_number := order_number o;
     payment_method := payment_method o;
     status := "paid";
     total_amount := total_amount o; items := items o;
     shipping_name := shipping_name o; shipping_email := shipping_email o;
     shipping_address_line1 := shipping_address_line1 o;
     shipping_address_line2 := shipping_address_line2 o;
     shipping_city := shipping_city o; shipping_state := shipping_state o;
     shipping_zip := shipping_zip o; shipping_country := shipping_country o;
     shipping_phone := shipping_phone o; shipping_cost := shipping_cost o;
     coupon_code := coupon_code o; coupon_discount := coupon_discount o;
     btcpay_invoice_id := btcpay_invoice_id o;
     paid_at := Some now;
     tracking_number := tracking_number o;
     shipping_tracking_url := shipping_tracking_url o;
     shipping_notification_scheduled_at := shipping_notification_scheduled_at o;
     shipping_notification_sent_at := shipping_notification_sent_at o |}.

(** [update({ shipping_notification_sent_at: ... })]. *)
Definition mark_notified (now : Z) (o : t) : t :=
  {| order_number := order_number o;
     payment_method := payment_method o;
     status := status o;
     total_amount := total_amount o; items := items o;
     shipping_name := shipping_name o; shipping_email := shipping_email o;
     shipping_address_line1 := shipping_address_line1 o;
     shipping_address_line2 := shipping_address_line2 o;
     shipping_city := shipping_city o; shipping_state := shipping_state o;
     shipping_zip := shipping_zip o; shipping_country := shipping_country o;
     shipping_phone := shipping_phone o; shipping_cost := shipping_cost o;
     coupon_code := coupon_code o; coupon_discount := coupon_discount o;
     btcpay_invoice_id := btcpay_invoice_id o;
     paid_at := paid_at o;
     tracking_number := tracking_number o;
     shipping_tracking_url := shipping_tracking_url o;
     shipping_notification_scheduled_at := shipping_notification_scheduled_at o;
     shipping_notification_sent_at := Some now |}.
End Order.

Module Store.

(** The two tables, keyed by their primary key [id]. *)
Record Db := {
  products : gmap string Product.t;
  orders : gmap string Order.t
}.

Definition with_products (ps : gmap string Product.t) (db : Db) : Db :=
  {| products := ps; orders := orders db |}.

Definition with_orders (os : gmap string Order.t) (db : Db) : Db :=
  {| products := products db; orders := os |}.

(** [from("products").select("stock").eq("id", id).single()]: [None] when
    the call fails or no row has this id (the handlers treat an error and
    missing data alike). *)
Definition select_product (fails : bool) (id : string) (db : Db)
    : option Product.t :=
  if fails then None else products db !! id.

(** [from("products").update({ stock }).eq("id", id)]: returns whether the
    call reported an error; an update that matches no row changes nothing
    and is no error. *)
Definition update_stock (fails : bool) (id : string) (newStock : Z) (db : Db)
    : bool * Db :=
  if fails then (true, db)
  else (false, with_products (alter (Product.with_stock newStock) id (products db)) db).

(** [from("orders").select(...).eq("id", id).single()]. *)
Definition select_order (fails : bool) (id : string) (db : Db)
    : option Order.t :=
  if fails then None else orders db !! id.

(** [from("orders").update(...).eq("id", id)]. *)
Definition update_order (fails : bool) (id : string) (f : Order.t -> Order.t)
    (db : Db) : bool * Db :=
  if fails then (true, db)
  else (false, with_orders (alter f id (orders db)) db).

(** [from("orders").insert([row]).select().single()]: the row comes back
    with the [id] the database gave it; the insert is refused when the call
    fails or the primary key is taken. *)
Definition insert_order (fails : bool) (id : string) (row : Order.t) (db : Db)
    : option (string * Order.t) * Db :=
  if fails then (None, db)
  else match orders db !! id with
       | Some _ => (None, db)
       | None => (Some (id, row), with_orders (<[id := row]> (orders db)) db)
       end.

End Store.

(* ===================================================================== *)
(** * HTTP responses of the route handlers *)
(* ===================================================================== *)

Module Http.

Inductive Body :=
| Error (error : string)
| RateLimited (error : string) (retryAfter : Z)
| InsufficientStock (error : string) (productName : string) (availableStock : Z)
| OrderCreated (orderId : string) (orderNumber : string)
| Success (message : option string)
| InvoiceCreated (invoiceId checkoutLink amount currency status : string).

Record Response := {
  status : Z;
  body : Body
}.

(** [NextResponse.json(body, { status })]; the status defaults to 200. *)
Definition json (st : Z) (b : Body) : Response := {| status := st; body := b |}.

(** The outcome of parsing and validating the request body. *)
Inductive Parsed (A : Type) :=
| InvalidJson
| SchemaError (message : string)
| Validated (data : A).
Arguments InvalidJson {A}.
Arguments SchemaError {A} message.
Arguments Validated {A} data.

(** What [rateLimiter.check] answered for this client. *)
Record RateLimit := {
  isAllowed : bool;
  retryAfter : Z
}.

End Http.

(* ===================================================================== *)
(** * POST /api/orders/create *)
(* ===================================================================== *)

Module CreateOrder.

(** [validation.data] of [createOrderSchema], the fields the handler reads. *)
Record Data := {
  items : list Item.t;
  totalAmount : float;
  shippingAddress : Address.t;
  shippingCost : option float;
  couponCode : option string;
  couponDiscount : option float
}.

(** What the handler reads from its surroundings: the rate limiter's
    answer, [Date.now()] and the random suffix of the order number (both
    already rendered), and the id the database gives the new row. *)
Record Env := {
  rateLimit : Http.RateLimit;
  timestamp : string;
  randomSuffix : string;
  newId : string
}.

(** Which datastore calls fail: the product fetch of the i-th line item,
    and the insert. *)
Record Faults := {
  productFetchFails : nat -> bool;
  insertFails : bool
}.

(** The stock check loop; [Some r] is the early return. *)
Fixpoint checkStock (fetchFails : nat -> bool) (i : nat) (items : list Item.t)
    (db : Store.Db) : option Http.Response :=
  match items with
  | [] => None
  | item :: rest =>
      match Store.select_product (fetchFails i) (Item.id item) db with
      | None =>
          Some (Http.json 400
                  (Http.Error ("Product " ++ Item.name item ++ " not found")))
      | Some product =>
          if Product.stock product <? Item.quantity item
          then Some (Http.json 400
                       (Http.InsufficientStock
                          ("Insufficient stock for " ++ Item.name item
                           ++ ". Only " ++ pretty (Product.stock product)
                           ++ " available.")
                          (Item.name item)
                          (Product.stock product)))
          else checkStock fetchFails (S i) rest db
      end
  end.

(** [item.selectedModifiers?.reduce((s, m) => s + m.priceAdjustment, 0) ?? 0] *)
Definition modifierTotal (item : Item.t) : float :=
  match Item.selectedModifiers item with
  | Some mods =>
      fold_left (fun modSum m => PrimFloat.add modSum (Modifier.priceAdjustment m))
                mods 0%float
  | None => 0%float
  end.

(** [(item.price + modifierTotal) * item.quantity] *)
Definition itemTotal (item : Item.t) : float :=
  PrimFloat.mul (PrimFloat.add (Item.price item) (modifierTotal item))
                (Js.number_of_Z (Item.quantity item)).

Definition calculatedSubtotal (items : list Item.t) : float :=
  fold_left (fun sum item => PrimFloat.add sum (itemTotal item)) items 0%float.

Definition calculatedTotal (d : Data) : float :=
  PrimFloat.sub
    (PrimFloat.add (calculatedSubtotal (items d))
                   (Js.nullish (shippingCost d) 0%float))
    (Js.nullish (couponDiscount d) 0%float).

(** [Math.abs(calculatedTotal - totalAmount) > 0.01] *)
Definition totalMismatch (d : Data) : bool :=
  PrimFloat.ltb 0.01%float
    (Js.Math_abs (PrimFloat.sub (calculatedTotal d) (totalAmount d))).

Definition orderNumber (env : Env) : string :=
  "ORD-" ++ timestamp env ++ "-" ++ randomSuffix env.

(** The row handed to [insert]; the columns the handler does not set take
    the table's defaults ([NULL]). *)
Definition newOrder (env : Env) (d : Data) : Order.t :=
  let a := shippingAddress d in
  {| Order.order_number := orderNumber env;
     Order.payment_method := "btcpay";
     Order.status := "pending";
     Order.total_amount := totalAmount d;
     Order.items := items d;
     Order.shipping_name := Address.name a;
     Order.shipping_email := Address.email a;
     Order.shipping_address_line1 := Address.addressLine1 a;
     Order.shipping_address_line2 := Address.addressLine2 a;
     Order.shipping_city := Address.city a;
     Order.shipping_state := Address.state a;
     Order.shipping_zip := Address.zip a;
     Order.shipping_country := Address.country a;
     Order.shipping_phone := Address.phone a;
     Order.shipping_cost := shippingCost d;
     Order.coupon_code := couponCode d;
     Order.coupon_discount := couponDiscount d;
     Order.btcpay_invoice_id := None;
     Order.paid_at := None;
     Order.tracking_number := None;
     Order.shipping_tracking_url := None;
     Order.shipping_notification_scheduled_at := None;
     Order.shipping_notification_sent_at := None |}.

Definition POST (env : Env) (faults : Faults) (request : Http.Parsed Data)
    (db : Store.Db) : Http.Response * Store.Db :=
  if negb (Http.isAllowed (rateLimit env)) then
    (Http.json 429
       (Http.RateLimited
          "Too many order creation attempts. Please wait before trying again."
          (Http.retryAfter (rateLimit env))), db)
  else
    match request with
    | Http.InvalidJson => (Http.json 400 (Http.Error "Invalid request body"), db)
    | Http.SchemaError message => (Http.json 400 (Http.Error message), db)
    | Http.Validated d =>
        match checkStock (productFetchFails faults) 0 (items d) db with
        | Some response => (response, db)
        | None =>
            if totalMismatch d then
              (Http.json 400 (Http.Error "Order total validation failed"), db)
            else
              match Store.insert_order (insertFails faults) (newId env)
                      (newOrder env d) db with
              | (None, db') =>
                  (Http.json 500 (Http.Error "Failed to create order"), db')
              | (Some (id, data), db') =>
                  (Http.json 200
                     (Http.OrderCreated id (Order.order_number data)),
                   db')
              end
        end
    end.

End CreateOrder.

(* ===================================================================== *)
(** * POST /api/orders/mark-paid (settlement) *)
(* ===================================================================== *)

Module MarkPaid.

(** The rate limiter's answer and [new Date()] at the status update. *)
Record Env := {
  rateLimit : Http.RateLimit;
  now : Z
}.

(** Which datastore calls fail: the order fetch, the product fetch and the
    stock update of the i-th line item, and the final status update. *)
Record Faults := {
  orderFetchFails : bool;
  productFetchFails : nat -> bool;
  stockUpdateFails : nat -> bool;
  statusUpdateFails : bool
}.

(** One turn of the stock loop: a product that cannot be fetched is
    skipped ([continue]); a failed update is logged and ignored. *)
Definition decrementItem (fetchFails updateFails : bool) (item : Item.t)
    (db : Store.Db) : Store.Db :=
  match Store.select_product fetchFails (Item.id item) db with
  | None => db
  | Some product =>
      let newStock := Z.max 0 (Product.stock product - Item.quantity item) in
      let '(updateError, db') :=
        Store.update_stock updateFails (Item.id item) newStock db in
      db'
  end.

Fixpoint decrementStock (faults : Faults) (i : nat) (items : list Item.t)
    (db : Store.Db) : Store.Db :=
  match items with
  | [] => db
  | item :: rest =>
      decrementStock faults (S i) rest
        (decrementItem (productFetchFails faults i) (stockUpdateFails faults i)
           item db)
  end.

Definition POST (env : Env) (faults : Faults) (request : Http.Parsed string)
    (db : Store.Db) : Http.Response * Store.Db :=
  if negb (Http.isAllowed (rateLimit env)) then
    (Http.json 429 (Http.Error "Too many requests"), db)
  else
    match request with
    | Http.InvalidJson => (Http.json 400 (Http.Error "Invalid request body"), db)
    | Http.SchemaError message => (Http.json 400 (Http.Error message), db)
    | Http.Validated orderId =>
        match Store.select_order (orderFetchFails faults) orderId db with
        | None => (Http.json 404 (Http.Error "Order not found"), db)
        | Some existingOrder =>
            if String.eqb (Order.status existingOrder) "paid" then
              (Http.json 200 (Http.Success (Some "Order already marked as paid")), db)
            else
              let db1 := decrementStock faults 0 (Order.items existingOrder) db in
              let '(error, db2) :=
                Store.update_order (statusUpdateFails faults) orderId
                  (Order.mark_paid (now env)) db1 in
              if error then
                (Http.json 500 (Http.Error "Failed to update order"), db2)
              else
                (Http.json 200 (Http.Success None), db2)
        end
    end.

End MarkPaid.

(* ===================================================================== *)
(** * POST /api/btcpay/create-invoice *)
(* ===================================================================== *)

Module CreateInvoice.

(** [z.enum(["bitcoin", "monero"])] *)
Inductive Crypto := bitcoin | monero.

Record Data := {
  amount : float;
  currency : string;
  orderId : string;
  buyerEmail : option string;
  preferredCrypto : option Crypto
}.

(** The JSON body posted to the gateway's invoices endpoint
    ([amount] stands for [amount.toString()]). *)
Record InvoiceRequest := {
  req_amount : float;
  req_currency : string;
  metadata_orderId : string;
  metadata_buyerEmail : option string;
  checkout_speedPolicy : string;
  checkout_paymentMethods : list string;
  checkout_expirationMinutes : Z
}.

(** The gateway's answer: the fetch throws, or the reply is not [ok] (with
    the [message] of its JSON body when it has one), or it is the invoice. *)
Inductive GatewayReply :=
| NetworkError
| HttpError (status : Z) (message : option string)
| Invoice (id checkoutLink amount currency status : string).

(** [msg.includes(needle)] on strings. *)
Fixpoint str_includes (needle msg : string) : bool :=
  String.prefix needle msg
  || match msg with
     | EmptyString => false
     | String _ rest => str_includes needle rest
     end.

(** The payment-method filter chosen from the customer's preference. *)
Definition paymentMethods (preferredCrypto : option Crypto) : list string :=
  match preferredCrypto with
  | Some monero => ["XMR"]
  | Some bitcoin => ["BTC"]
  | None => ["BTC"; "XMR"]
  end.

Definition invoiceRequest (d : Data) : InvoiceRequest :=
  {| req_amount := amount d;
     req_currency := currency d;
     metadata_orderId := orderId d;
     metadata_buyerEmail := buyerEmail d;
     checkout_speedPolicy := "HighSpeed";
     checkout_paymentMethods := paymentMethods (preferredCrypto d);
     checkout_expirationMinutes := 60 |}.

(** The handler returns its response and the requests it sent to the
    gateway. *)
Definition POST (rateLimit : Http.RateLimit)
    (gateway : InvoiceRequest -> GatewayReply) (request : Http.Parsed Data)
    : Http.Response * list InvoiceRequest :=
  if negb (Http.isAllowed rateLimit) then
    (Http.json 429
       (Http.RateLimited
          "Too many invoice creation attempts. Please wait before trying again."
          (Http.retryAfter rateLimit)), [])
  else
    match request with
    | Http.InvalidJson => (Http.json 400 (Http.Error "Invalid request body"), [])
    | Http.SchemaError message => (Http.json 400 (Http.Error message), [])
    | Http.Validated d =>
        let req := invoiceRequest d in
        match gateway req with
        | NetworkError => (Http.json 500 (Http.Error "Internal server error"), [req])
        | HttpError st message =>
            let errorMessage :=
              match message with
              | Some m =>
                  if str_includes "Payment method unavailable" m
                  then "The requested payment method is currently unavailable. Please try a different payment option."
                  else if negb (String.eqb m "") then m
                  else "Failed to create invoice"
              | None => "Failed to create invoice"
              end in
            (Http.json st (Http.Error errorMessage), [req])
        | Invoice id checkoutLink amount currency status =>
            (Http.json 200
               (Http.InvoiceCreated id checkoutLink amount currency status),
             [req])
        end
    end.

End CreateInvoice.

(* ===================================================================== *)
(** * The payment screen: status polling and the completion callback *)
(* ===================================================================== *)

Module PaymentScreen.

(** What one run of [fetchInvoiceStatus] observes: the fetch fails (the
    [catch] branch), or the invoice route answers with a status. *)
Inductive Poll :=
| FetchFailed
| Status (status : string).

(** [data.status === "Settled" || data.status === "Processing"] *)
Definition isTerminal (status : string) : bool :=
  String.eqb status "Settled" || String.eqb status "Processing".

Definition pollIsTerminal (p : Poll) : bool :=
  match p with
  | FetchFailed => false
  | Status s => isTerminal s
  end.

(** The state shared by the checkout page and the payment screen it
    renders.
    - [status], [completionTriggered]: [useState] cells of the screen;
    - [closureFlag]: the [completionTriggered] captured by the
      [fetchInvoiceStatus] of the last render (the one the interval calls);
    - [inFlight]: the polls started and not yet answered, each with the
      [completionTriggered] its closure captured;
    - [paymentProcessedRef]: the [useRef] of the checkout page;
    - [observed]: how many answers were handled;
    - [onCompleteCalls]: the observations at which [onComplete] was called;
    - [settlements]: the observations at which [handlePaymentComplete]
      passed its guard and ran the settlement side effects. *)
Record State := {
  status : string;
  completionTriggered : bool;
  closureFlag : bool;
  inFlight : list bool;
  paymentProcessedRef : bool;
  observed : nat;
  onCompleteCalls : list nat;
  settlements : list nat
}.

Definition init : State :=
  {| status := "new"; completionTriggered := false; closureFlag := false;
     inFlight := []; paymentProcessedRef := false; observed := 0%nat;
     onCompleteCalls := []; settlements := [] |}.

(** [handlePaymentComplete] of the checkout page, called at observation
    [n]: the ref guard is checked and set before anything else. *)
Definition handlePaymentComplete (n : nat) (s : State) : State :=
  if paymentProcessedRef s then s
  else
    {| status := status s; completionTriggered := completionTriggered s;
       closureFlag := closureFlag s; inFlight := inFlight s;
       paymentProcessedRef := true;
       observed := observed s;
       onCompleteCalls := onCompleteCalls s;
       settlements := settlements s ++ [n] |}.

(** [onComplete()] as the screen calls it. *)
Definition onComplete (n : nat) (s : State) : State :=
  handlePaymentComplete n
    {| status := status s; completionTriggered := completionTriggered s;
       closureFlag := closureFlag s; inFlight := inFlight s;
       paymentProcessedRef := paymentProcessedRef s;
       observed := observed s;
       onCompleteCalls := onCompleteCalls s ++ [n];
       settlements := settlements s |}.

(** The interval (or the effect) calls [fetchInvoiceStatus]: the request
    leaves, carrying the closure of the last render. *)
Definition startPoll (s : State) : State :=
  {| status := status s; completionTriggered := completionTriggered s;
     closureFlag := closureFlag s; inFlight := inFlight s ++ [closureFlag s];
     paymentProcessedRef := paymentProcessedRef s;
     observed := observed s;
     onCompleteCalls := onCompleteCalls s;
     settlements := settlements s |}.

(** The rest of [fetchInvoiceStatus] after the [await], for a closure
    that captured [captured]. *)
Definition handleAnswer (captured : bool) (p : Poll) (s : State) : State :=
  let n := observed s in
  let s := {| status := status s; completionTriggered := completionTriggered s;
              closureFlag := closureFlag s; inFlight := inFlight s;
              paymentProcessedRef := paymentProcessedRef s;
              observed := S n;
              onCompleteCalls := onCompleteCalls s;
              settlements := settlements s |} in
  match p with
  | FetchFailed => s
  | Status st =>
      let s := {| status := st; completionTriggered := completionTriggered s;
                  closureFlag := closureFlag s; inFlight := inFlight s;
                  paymentProcessedRef := paymentProcessedRef s;
                  observed := observed s;
                  onCompleteCalls := onCompleteCalls s;
                  settlements := settlements s |} in
      if isTerminal st && negb captured then
        onComplete n
          {| status := status s; completionTriggered := true;
             closureFlag := closureFlag s; inFlight := inFlight s;
             paymentProcessedRef := paymentProcessedRef s;
             observed := observed s;
             onCompleteCalls := onCompleteCalls s;
             settlements := settlements s |}
      else s
  end.

(** The i-th poll in flight is answered. *)
Definition resolvePoll (i : nat) (p : Poll) (s : State) : State :=
  match inFlight s !! i with
  | None => s
  | Some captured =>
      handleAnswer captured p
        {| status := status s; completionTriggered := completionTriggered s;
           closureFlag := closureFlag s;
           inFlight := take i (inFlight s) ++ drop (S i) (inFlight s);
           paymentProcessedRef := paymentProcessedRef s;
           observed := observed s;
           onCompleteCalls := onCompleteCalls s;
           settlements := settlements s |}
  end.

(** React renders again: [useCallback] rebuilds [fetchInvoiceStatus] over
    the current state and the effect restarts the interval with it. *)
Definition render (s : State) : State :=
  {| status := status s; completionTriggered := completionTriggered s;
     closureFlag := completionTriggered s; inFlight := inFlight s;
     paymentProcessedRef := paymentProcessedRef s;
     observed := observed s;
     onCompleteCalls := onCompleteCalls s;
     settlements := settlements s |}.

(** What can happen on the screen, in any order. *)
Inductive Event :=
| Tick
| Answer (i : nat) (p : Poll)
| Render.

Definition step (s : State) (e : Event) : State :=
  match e with
  | Tick => startPoll s
  | Answer i p => resolvePoll i p s
  | Render => render s
  end.

Definition run (events : list Event) (s : State) : State :=
  fold_left step events s.


(** The answers a schedule delivers, in the order they are handled. *)
Fixpoint answers (events : list Event) (s : State) : list Poll :=
  match events with
  | [] => []
  | e :: rest =>
      match e with
      | Answer i p =>
          match inFlight s !! i with
          | Some _ => p :: answers rest (step s e)
          | None => answers rest (step s e)
          end
      | _ => answers rest (step s e)
      end
  end.

(** Position of the first terminal-equivalent observation, counting from
    [n]. *)
Fixpoint firstTerminal (n : nat) (polls : list Poll) : option nat :=
  match polls with
  | [] => None
  | p :: rest => if pollIsTerminal p then Some n else firstTerminal (S n) rest
  end.

(** The observations at which the completion is expected: the first
    terminal-equivalent one, if any. *)
Definition expectedFirings (polls : list Poll) : list nat :=
  match firstTerminal 0 polls with
  | Some i => [i]
  | None => []
  end.

End PaymentScreen.

(* ===================================================================== *)
(** * scripts/send-scheduled-shipping-notifications *)
(* ===================================================================== *)

Module Sweep.

(** A message handed to the mailer (the bodies are templates over the
    same fields). *)
Record Email := {
  to : string;
  subject : string
}.

(** The datastore and the messages the mailer accepted. *)
Record World := {
  db : Store.Db;
  outbox : list Email
}.

(** [now]: the time of the query; [stampedAt id]: the time written as
    [shipping_notification_sent_at] of the order [id] (a fresh [new Date()]
    at each update). *)
Record Env := {
  now : Z;
  stampedAt : string -> Z
}.

(** Which calls fail: the query, and per order id the mailer and the
    update that stamps the order. *)
Record Faults := {
  queryFails : bool;
  sendFails : string -> bool;
  stampFails : string -> bool
}.

(** The filter of the query. *)
Definition due (now : Z) (o : Order.t) : bool :=
  match Order.shipping_notification_scheduled_at o with
  | Some scheduled =>
      match Order.shipping_notification_sent_at o with
      | None =>
          (scheduled <=? now)
          && match Order.shipping_email o with Some _ => true | None => false end
          && match Order.tracking_number o with Some _ => true | None => false end
          && match Order.shipping_tracking_url o with Some _ => true | None => false end
      | Some _ => false
      end
  | None => false
  end.

(** The rows the query returns, each with its [id]. *)
Definition selectDue (now : Z) (d : Store.Db) : list (string * Order.t) :=
  List.filter (fun row => due now (snd row)) (map_to_list (Store.orders d)).

(** The message [sendShippingEmail] builds for an order. *)
Definition shippingEmail (order : Order.t) : Email :=
  {| to := Js.nullish (Order.shipping_email order) "";
     subject := "Your Order Has Shipped - " ++ Order.order_number order |}.

Definition sendShippingEmail (fails : bool) (order : Order.t) (w : World)
    : bool * World :=
  if fails then (false, w)
  else
    (true,
     {| db := db w; outbox := outbox w ++ [shippingEmail order] |}).

Fixpoint processOrders (env : Env) (faults : Faults)
    (orders : list (string * Order.t)) (w : World) : World :=
  match orders with
  | [] => w
  | (id, order) :: rest =>
      let '(emailSent, w1) := sendShippingEmail (sendFails faults id) order w in
      let w2 :=
        if emailSent then
          let '(updateError, db') :=
            Store.update_order (stampFails faults id) id
              (Order.mark_notified (stampedAt env id)) (db w1) in
          {| db := db'; outbox := outbox w1 |}
        else w1 in
      processOrders env faults rest w2
  end.

Definition processPendingNotifications (env : Env) (faults : Faults)
    (w : World) : World :=
  if queryFails faults then w
  else
    match selectDue (now env) (db w) with
    | [] => w
    | orders => processOrders env faults orders w
    end.

End Sweep.

(* ===================================================================== *)
(** * The rate limiter (lib/security/rate-limiter) *)
(* ===================================================================== *)

Module RateLimiter.

Record RateLimitEntry := {
  count : Z;
  resetTime : Z
}.

Record RateLimitConfig := {
  windowMs : Z;
  maxRequests : Z
}.

(** What [check] returns. *)
Record CheckResult := {
  isAllowed : bool;
  remaining : Z;
  resetAt : Z        (* the [resetTime] of the result *)
}.

(** The [Map] of the limiter, by key. *)
Definition Store := gmap string RateLimitEntry.

(** [check(key, config)] at [Date.now() = now]. *)
Definition check (now : Z) (key : string) (config : RateLimitConfig)
    (store : Store) : CheckResult * Store :=
  let fresh :=
    let resetTime := now + windowMs config in
    ({| isAllowed := true; remaining := maxRequests config - 1;
        resetAt := resetTime |},
     <[key := {| count := 1; resetTime := resetTime |}]> store) in
  match store !! key with
  | None => fresh
  | Some entry =>
      if resetTime entry <? now then fresh
      else if count entry <? maxRequests config then
        let entry' := {| count := count entry + 1; resetTime := resetTime entry |} in
        ({| isAllowed := true;
            remaining := maxRequests config - count entry';
            resetAt := resetTime entry' |},
         <[key := entry']> store)
      else
        ({| isAllowed := false; remaining := 0; resetAt := resetTime entry |},
         store)
  end.

(** [cleanup()] at [Date.now() = now]: the expired entries are deleted. *)
Definition cleanup (now : Z) (store : Store) : Store :=
  filter (fun kv : string * RateLimitEntry => ~ (resetTime (snd kv) < now)) store.

(** [reset(key)]. *)
Definition reset (key : string) (store : Store) : Store := delete key store.

(** [getStatus(key)]. *)
Definition getStatus (key : string) (store : Store) : option RateLimitEntry :=
  store !! key.

(** [str.split(",")[0]]: what comes before the first comma. *)
Fixpoint beforeComma (s : string) : string :=
  match s with
  | EmptyString => EmptyString
  | String c rest =>
      if String.eqb (String c EmptyString) "," then EmptyString
      else String c (beforeComma rest)
  end.

(** [getClientId(request)], from the two headers it reads ([None]: the
    header is absent); a string is its sequence of code units. *)
Definition getClientId (forwarded userAgent : option string) : string :=
  let ip :=
    match forwarded with
    | Some f => if String.eqb f "" then "unknown" else beforeComma f
    | None => "unknown"
    end in
  let userAgent := Js.nullish userAgent "unknown" in
  ip ++ ":" ++ String.substring 0 50 userAgent.

(** [RateLimitPresets]. *)
Definition LOGIN : RateLimitConfig := {| windowMs := 15 * 60 * 1000; maxRequests := 5 |}.
Definition ADMIN : RateLimitConfig := {| windowMs := 60 * 1000; maxRequests := 20 |}.
Definition ORDER_CREATE : RateLimitConfig := {| windowMs := 60 * 1000; maxRequests := 6 |}.
Definition API : RateLimitConfig := {| windowMs := 60 * 1000; maxRequests := 60 |}.
Definition PUBLIC : RateLimitConfig := {| windowMs := 60 * 1000; maxRequests := 100 |}.

(** [check] once per time of the list, in order, on one key; the answers. *)
Fixpoint checks (times : list Z) (key : string) (config : RateLimitConfig)
    (store : Store) : list CheckResult * Store :=
  match times with
  | [] => ([], store)
  | now :: rest =>
      let '(r, store1) := check now key config store in
      let '(rs, store2) := checks rest key config store1 in
      (r :: rs, store2)
  end.

(** [Math.ceil((resetTime - Date.now()) / 1000)], the seconds the handlers
    report in [Retry-After] (the quotient of two integers of this size is
    rounded to the integer above as the exact quotient is). *)
Definition retryAfterSeconds (resetTime now : Z) : Z :=
  - ((- (resetTime - now)) / 1000).

End RateLimiter.

(* ===================================================================== *)
(** * Order creation and settlement behind the rate limiter *)
(* ===================================================================== *)

Module Served.

(** The head of the creation handler: [rateLimiter.check(clientId,
    RateLimitPresets.ORDER_CREATE)] at time [now], its answer read by the
    rest of the handler ([now'] is the later [Date.now()] of the
    [Retry-After] computation). *)
Definition createOrder (now now' : Z) (clientId : string)
    (timestamp randomSuffix newId : string) (faults : CreateOrder.Faults)
    (request : Http.Parsed CreateOrder.Data)
    (state : RateLimiter.Store * Store.Db)
    : Http.Response * (RateLimiter.Store * Store.Db) :=
  let '(limiter, db) := state in
  let '(rateLimit, limiter') :=
    RateLimiter.check now clientId RateLimiter.ORDER_CREATE limiter in
  let env :=
    {| CreateOrder.rateLimit :=
         {| Http.isAllowed := RateLimiter.isAllowed rateLimit;
            Http.retryAfter :=
              RateLimiter.retryAfterSeconds (RateLimiter.resetAt rateLimit) now' |};
       CreateOrder.timestamp := timestamp;
       CreateOrder.randomSuffix := randomSuffix;
       CreateOrder.newId := newId |} in
  let '(response, db') := CreateOrder.POST env faults request db in
  (response, (limiter', db')).

(** The head of the settlement handler, with the preset [API]. *)
Definition markPaid (now now' paidAt : Z) (clientId : string)
    (faults : MarkPaid.Faults) (request : Http.Parsed string)
    (state : RateLimiter.Store * Store.Db)
    : Http.Response * (RateLimiter.Store * Store.Db) :=
  let '(limiter, db) := state in
  let '(rateLimit, limiter') :=
    RateLimiter.check now clientId RateLimiter.API limiter in
  let env :=
    {| MarkPaid.rateLimit :=
         {| Http.isAllowed := RateLimiter.isAllowed rateLimit;
            Http.retryAfter :=
              RateLimiter.retryAfterSeconds (RateLimiter.resetAt rateLimit) now' |};
       MarkPaid.now := paidAt |} in
  let '(response, db') := MarkPaid.POST env faults request db in
  (response, (limiter', db')).

End Served.

(* ===================================================================== *)
(** * Product prices ([calculateDiscountedPrice], [hasDiscount] of lib/supabase) *)
(* ===================================================================== *)

Module Pricing.

(** [Math.max(a, b)]: [NaN] if either argument is [NaN]; [+0] is larger
    than [-0]. *)
Definition Math_max (a b : float) : float :=
  if PrimFloat.is_nan a || PrimFloat.is_nan b then PrimFloat.nan
  else if PrimFloat.ltb a b then b
  else if PrimFloat.ltb b a then a
  else if PrimFloat.get_sign a then b else a.

(** [calculateDiscountedPrice(price, discount)]; [discount] is a
    percentage, possibly absent. *)
Definition calculateDiscountedPrice (price : float) (discount : option float)
    : float :=
  if negb (Js.truthy_opt_number discount)
     || PrimFloat.leb (Js.nullish discount 0%float) 0%float
  then price
  else
    let discountAmount :=
      PrimFloat.div (PrimFloat.mul price (Js.nullish discount 0%float)) 100%float in
    PrimFloat.sub price discountAmount.

(** [hasDiscount(product)], from the product's [discount]. *)
Definition hasDiscount (discount : option float) : bool :=
  Js.truthy_opt_number discount
  && PrimFloat.ltb 0%float (Js.nullish discount 0%float).

End Pricing.

(* ===================================================================== *)
(** * The cart (context/CartContext) *)
(* ===================================================================== *)

Module Cart.

(** A cart line: the product's columns the cart and the checkout read
    (its descriptive columns are carried along untouched), the quantity,
    the chosen modifiers and the line's own id. *)
Record CartItem := {
  id : string;
  name : string;
  price : float;
  discount : option float;
  quantity : Z;
  selectedModifiers : option (list Modifier.t);
  cartItemId : string
}.

(** The product handed to [addToCart]. *)
Record Product := {
  product_id : string;
  product_name : string;
  product_price : float;
  product_discount : option float
}.

Definition with_quantity (q : Z) (item : CartItem) : CartItem :=
  {| id := id item; name := name item; price := price item;
     discount := discount item; quantity := q;
     selectedModifiers := selectedModifiers item;
     cartItemId := cartItemId item |}.

(** [arr.join(sep)]. *)
Fixpoint join (sep : string) (arr : list string) : string :=
  match arr with
  | [] => ""
  | [x] => x
  | x :: rest => x ++ sep ++ join sep rest
  end.

(** The order of [arr.sort()] on strings: code unit by code unit. *)
Definition string_le (a b : string) : Prop := String.leb a b = true.

#[global] Instance string_le_dec a b : Decision (string_le a b).
Proof. unfold string_le. apply _. Defined.

(** [selectedModifiers?.map(m => `${m.groupId}:${m.optionId}`).sort().join('|') ?? ''] *)
Definition modifierKey (selectedModifiers : option (list Modifier.t)) : string :=
  match selectedModifiers with
  | Some mods =>
      join "|"
        (merge_sort string_le
           (List.map (fun m => Modifier.groupId m ++ ":" ++ Modifier.optionId m) mods))
  | None => ""
  end.

(** The updater of [addToCart(product, selectedModifiers)]; [now] is the
    rendering of [Date.now()]. *)
Definition addToCart (now : string) (product : Product)
    (selectedModifiers : option (list Modifier.t)) (currentCart : list CartItem)
    : list CartItem :=
  let modifierKey_ := modifierKey selectedModifiers in
  let cartItemId_ := product_id product ++ "_" ++ modifierKey_ ++ "_" ++ now in
  let existingItem :=
    List.find
      (fun item =>
         if negb (String.eqb (id item) (product_id product)) then false
         else String.eqb (modifierKey (Cart.selectedModifiers item)) modifierKey_)
      currentCart in
  match existingItem with
  | Some existing =>
      List.map
        (fun item =>
           if String.eqb (cartItemId item) (cartItemId existing)
           then with_quantity (quantity item + 1) item
           else item)
        currentCart
  | None =>
      (currentCart
       ++ [{| id := product_id product; name := product_name product;
              price := product_price product; discount := product_discount product;
              quantity := 1; selectedModifiers := selectedModifiers;
              cartItemId := cartItemId_ |}])%list
  end.

Definition removeFromCart (cartItemId_ : string) (currentCart : list CartItem)
    : list CartItem :=
  List.filter (fun item => negb (String.eqb (cartItemId item) cartItemId_)) currentCart.

Definition updateQuantity (cartItemId_ : string) (quantity_ : Z)
    (currentCart : list CartItem) : list CartItem :=
  if quantity_ <=? 0 then removeFromCart cartItemId_ currentCart
  else
    List.map
      (fun item =>
         if String.eqb (cartItemId item) cartItemId_
         then with_quantity quantity_ item else item)
      currentCart.

Definition clearCart (currentCart : list CartItem) : list CartItem := [].

Definition modifiersPrice (item : CartItem) : float :=
  match selectedModifiers item with
  | Some mods =>
      fold_left (fun sum m => PrimFloat.add sum (Modifier.priceAdjustment m))
                mods 0%float
  | None => 0%float
  end.

Definition getTotalPrice (cart : list CartItem) : float :=
  fold_left
    (fun total item =>
       let basePrice := Pricing.calculateDiscountedPrice (price item) (discount item) in
       PrimFloat.add total
         (PrimFloat.mul (PrimFloat.add basePrice (modifiersPrice item))
                        (Js.number_of_Z (quantity item))))
    cart 0%float.

Definition getTotalItems (cart : list CartItem) : Z :=
  fold_left (fun total item => total + quantity item) cart 0.

End Cart.

(* ===================================================================== *)
(** * The checkout page: totals and the requests it sends *)
(* ===================================================================== *)

Module Checkout.

(** The [appliedCoupon] state: the coupon as the validation route
    returned it. *)
Record AppliedCoupon := {
  id : string;
  code : string;
  discount_type : string;
  discount_value : float;
  discount : option float
}.

Definition subtotal (cart : list Cart.CartItem) : float := Cart.getTotalPrice cart.

Definition couponDiscount (appliedCoupon : option AppliedCoupon) (subtotal : float)
    : float :=
  match appliedCoupon with
  | Some c =>
      if String.eqb (discount_type c) "percentage"
      then PrimFloat.mul subtotal (PrimFloat.div (discount_value c) 100%float)
      else Js.Math_min (discount_value c) subtotal
  | None => 0%float
  end.

Definition totalPrice (subtotal couponDiscount shippingCost : float) : float :=
  Pricing.Math_max
    (PrimFloat.add (PrimFloat.sub subtotal couponDiscount) shippingCost) 0%float.

(** The [items] of the body posted to the creation route (the route's
    schema also admits [originalPrice] and [discount], which the handler
    does not read). *)
Definition orderItems (cart : list Cart.CartItem) : list Item.t :=
  List.map
    (fun item =>
       {| Item.id := Cart.id item; Item.name := Cart.name item;
          Item.price := Pricing.calculateDiscountedPrice (Cart.price item)
                          (Cart.discount item);
          Item.quantity := Cart.quantity item;
          Item.selectedModifiers := Cart.selectedModifiers item |})
    cart.

(** The body posted to the creation route by [handleCheckout]. *)
Definition orderRequest (cart : list Cart.CartItem)
    (appliedCoupon : option AppliedCoupon) (shippingCost : float)
    (shippingAddress : Address.t) : CreateOrder.Data :=
  let subtotal := subtotal cart in
  let couponDiscount := couponDiscount appliedCoupon subtotal in
  {| CreateOrder.items := orderItems cart;
     CreateOrder.totalAmount := totalPrice subtotal couponDiscount shippingCost;
     CreateOrder.shippingAddress := shippingAddress;
     CreateOrder.shippingCost := Some shippingCost;
     CreateOrder.couponCode := code <$> appliedCoupon;
     CreateOrder.couponDiscount := Some couponDiscount |}.

(** The body posted to the invoice route by [handleCheckout]: the page's
    [selectedCrypto] is always one of the two currencies. *)
Definition invoiceRequest (totalPrice : float) (orderId : string)
    (selectedCrypto : CreateInvoice.Crypto) : CreateInvoice.Data :=
  {| CreateInvoice.amount := totalPrice; CreateInvoice.currency := "USD";
     CreateInvoice.orderId := orderId; CreateInvoice.buyerEmail := None;
     CreateInvoice.preferredCrypto := Some selectedCrypto |}.

End Checkout.

(* ===================================================================== *)
(** * POST /api/coupons/validate *)
(* ===================================================================== *)

Module CouponRoute.

(** A row of [coupon_usage]. *)
Record Usage := {
  coupon_id : string;
  customer_email : string
}.

Record Tables := {
  coupons : list Coupon.Coupon;
  coupon_usage : list Usage
}.

(** [.single()]: the row when exactly one row matches; otherwise the reply
    carries an error and no data. *)
Definition single {A} (rows : list A) : option A :=
  match rows with
  | [row] => Some row
  | _ => None
  end.

(** The JSON body, a field absent when the body lacks it. *)
Record Body := {
  code : option string;
  orderTotal : option float;
  customerEmail : option string;
  cartProductIds : option (list string)
}.

(** Truthiness of an optional string. *)
Definition truthy_opt_string (s : option string) : bool :=
  match s with
  | Some v => negb (String.eqb v "")
  | None => false
  end.

Inductive Reply :=
| Failed (status : Z) (error : option string)
| Accepted (id code : string) (discount_type : Coupon.DiscountType)
    (discount_value : float) (discount : option float).

(** Which datastore calls fail. *)
Record Faults := {
  couponFetchFails : bool;
  usageFetchFails : bool
}.

Section Route.

(** [n.toFixed(2)] and [s.toUpperCase()]. *)
Variable toFixed2 : float -> string.
Variable toUpperCase : string -> string.

(** [request]: the parsed body, [None] when [req.json()] throws. *)
Definition POST (now : Z) (faults : Faults) (request : option Body)
    (tables : Tables) : Reply :=
  match request with
  | None => Failed 500 (Some "Failed to validate coupon")
  | Some body =>
      if negb (truthy_opt_string (code body))
         || negb (Js.truthy_opt_number (orderTotal body))
      then Failed 400 (Some "Coupon code and order total are required")
      else
        let code_ := Js.nullish (code body) "" in
        let orderTotal_ := Js.nullish (orderTotal body) 0%float in
        let result :=
          if couponFetchFails faults then None
          else single (List.filter
                         (fun c => String.eqb (Coupon.code c) (toUpperCase code_))
                         (coupons tables)) in
        match result with
        | None => Failed 404 (Some "Invalid coupon code")
        | Some coupon =>
            let used :=
              if Coupon.one_per_customer coupon
                 && truthy_opt_string (customerEmail body)
              then
                if usageFetchFails faults then false
                else
                  match single
                          (List.filter
                             (fun u =>
                                String.eqb (coupon_id u) (Coupon.id coupon)
                                && String.eqb (customer_email u)
                                     (Js.nullish (customerEmail body) ""))
                             (coupon_usage tables)) with
                  | Some _ => true
                  | None => false
                  end
              else false in
            if used then Failed 400 (Some "You have already used this coupon")
            else
              let validation :=
                Coupon.validateCoupon toFixed2 now coupon orderTotal_
                  (customerEmail body) (cartProductIds body) in
              if negb (Coupon.valid validation)
              then Failed 400 (Coupon.error validation)
              else Accepted (Coupon.id coupon) (Coupon.code coupon)
                     (Coupon.discount_type coupon) (Coupon.discount_value coupon)
                     (Coupon.discount validation)
        end
  end.

End Route.

End CouponRoute.

(* ===================================================================== *)
(** * POST /api/orders/update-invoice *)
(* ===================================================================== *)

Module UpdateInvoice.

Record Data := {
  orderId : string;
  invoiceId : string
}.

(** [update({ btcpay_invoice_id: invoiceId })]. *)
Definition set_invoice (invoiceId : string) (o : Order.t) : Order.t :=
  {| Order.order_number := Order.order_number o;
     Order.payment_method := Order.payment_method o;
     Order.status := Order.status o;
     Order.total_amount := Order.total_amount o; Order.items := Order.items o;
     Order.shipping_name := Order.shipping_name o;
     Order.shipping_email := Order.shipping_email o;
     Order.shipping_address_line1 := Order.shipping_address_line1 o;
     Order.shipping_address_line2 := Order.shipping_address_line2 o;
     Order.shipping_city := Order.shipping_city o;
     Order.shipping_state := Order.shipping_state o;
     Order.shipping_zip := Order.shipping_zip o;
     Order.shipping_country := Order.shipping_country o;
     Order.shipping_phone := Order.shipping_phone o;
     Order.shipping_cost := Order.shipping_cost o;
     Order.coupon_code := Order.coupon_code o;
     Order.coupon_discount := Order.coupon_discount o;
     Order.btcpay_invoice_id := Some invoiceId;
     Order.paid_at := Order.paid_at o;
     Order.tracking_number := Order.tracking_number o;
     Order.shipping_tracking_url := Order.shipping_tracking_url o;
     Order.shipping_notification_scheduled_at :=
       Order.shipping_notification_scheduled_at o;
     Order.shipping_notification_sent_at := Order.shipping_notification_sent_at o |}.

Definition POST (rateLimit : Http.RateLimit) (updateFails : bool)
    (request : Http.Parsed Data) (db : Store.Db) : Http.Response * Store.Db :=
  if negb (Http.isAllowed rateLimit) then
    (Http.json 429 (Http.Error "Too many requests"), db)
  else
    match request with
    | Http.InvalidJson => (Http.json 400 (Http.Error "Invalid request body"), db)
    | Http.SchemaError message => (Http.json 400 (Http.Error message), db)
    | Http.Validated d =>
        let '(error, db') :=
          Store.update_order updateFails (orderId d) (set_invoice (invoiceId d)) db in
        if error then (Http.json 500 (Http.Error "Failed to update order"), db')
        else (Http.json 200 (Http.Success None), db')
    end.

End UpdateInvoice.

(* ===================================================================== *)
(** * The admin orders page: [markAsShipped] *)
(* ===================================================================== *)

Module Admin.

(** The update of [markAsShipped]; [notificationScheduledAt] is the time
    the page computes, 24 hours of the browser's clock after the click
    (the [shipped_at] column is not among the modelled ones). *)
Definition shipped (trackingNumber trackingUrl : string)
    (notificationScheduledAt : Z) (o : Order.t) : Order.t :=
  {| Order.order_number := Order.order_number o;
     Order.payment_method := Order.payment_method o;
     Order.status := "shipped";
     Order.total_amount := Order.total_amount o; Order.items := Order.items o;
     Order.shipping_name := Order.shipping_name o;
     Order.shipping_email := Order.shipping_email o;
     Order.shipping_address_line1 := Order.shipping_address_line1 o;
     Order.shipping_address_line2 := Order.shipping_address_line2 o;
     Order.shipping_city := Order.shipping_city o;
     Order.shipping_state := Order.shipping_state o;
     Order.shipping_zip := Order.shipping_zip o;
     Order.shipping_country := Order.shipping_country o;
     Order.shipping_phone := Order.shipping_phone o;
     Order.shipping_cost := Order.shipping_cost o;
     Order.coupon_code := Order.coupon_code o;
     Order.coupon_discount := Order.coupon_discount o;
     Order.btcpay_invoice_id := Order.btcpay_invoice_id o;
     Order.paid_at := Order.paid_at o;
     Order.tracking_number := Some trackingNumber;
     Order.shipping_tracking_url := Some trackingUrl;
     Order.shipping_notification_scheduled_at := Some notificationScheduledAt;
     Order.shipping_notification_sent_at := Order.shipping_notification_sent_at o |}.

(** [markAsShipped(orderId, trackingNumber, trackingUrl)]: the flag says
    whether the update reported an error (the page then shows a toast). *)
Definition markAsShipped (updateFails : bool) (notificationScheduledAt : Z)
    (orderId trackingNumber trackingUrl : string) (db : Store.Db)
    : bool * Store.Db :=
  Store.update_order updateFails orderId
    (shipped trackingNumber trackingUrl notificationScheduledAt) db.

End Admin.

(* ===================================================================== *)
(** * The specification's formulas, written as the specification words them *)
(* ===================================================================== *)

Module Spec.

(** Sum of the selected-modifier price deltas of a line item. *)
Definition modifierDeltas (item : Item.t) : float :=
  fold_left PrimFloat.add
    (List.map Modifier.priceAdjustment (Js.nullish (Item.selectedModifiers item) []))
    0%float.

(** (unit price + modifier deltas) x quantity. *)
Definition lineTotal (item : Item.t) : float :=
  PrimFloat.mul (PrimFloat.add (Item.price item) (modifierDeltas item))
                (Js.number_of_Z (Item.quantity item)).

(** Subtotal + shipping cost - coupon discount, summed from left to right. *)
Definition expectedTotal (items : list Item.t) (shipping discount : option float)
    : float :=
  PrimFloat.sub
    (PrimFloat.add (fold_left PrimFloat.add (List.map lineTotal items) 0%float)
                   (Js.nullish shipping 0%float))
    (Js.nullish discount 0%float).

(** The discount a coupon grants before it is capped. *)
Definition uncappedDiscount (coupon : Coupon.Coupon) (subtotal : float) : float :=
  match Coupon.discount_type coupon with
  | Coupon.percentage =>
      PrimFloat.div (PrimFloat.mul subtotal (Coupon.discount_value coupon)) 100%float
  | Coupon.fixed => Coupon.discount_value coupon
  end.

(** The checks of the evaluator that come before the applicability check:
    active, time window, usage limit, minimum amount. *)
Definition passesEarlierChecks (now : Z) (coupon : Coupon.Coupon)
    (orderTotal : float) : bool :=
  Coupon.active coupon
  && negb (Js.date_lt (Js.Time now) (Coupon.valid_from coupon))
  && negb (match Coupon.valid_until coupon with
           | Some validUntil => Js.date_lt validUntil (Js.Time now)
           | None => false
           end)
  && negb (Js.truthy_opt_int (Coupon.max_uses coupon)
           && (Js.nullish (Coupon.max_uses coupon) 0 <=? Coupon.current_uses coupon))
  && negb (Js.truthy_opt_number (Coupon.minimum_order_amount coupon)
           && PrimFloat.ltb orderTotal
                (Js.nullish (Coupon.minimum_order_amount coupon) PrimFloat.zero)).

(** Every product of the table has a non-negative stock. *)
Definition stockNonNegative (db : Store.Db) : Prop :=
  forall id p, Store.products db !! id = Some p -> 0 <= Product.stock p.

(** Whether the sweep stamps the order [id]: the mail went out and the
    update went through. *)
Definition stamps (faults : Sweep.Faults) (id : string) : bool :=
  negb (Sweep.sendFails faults id) && negb (Sweep.stampFails faults id).

End Spec.

(* ===================================================================== *)
(** * Concrete data of the specification's scenarios *)
(* ===================================================================== *)

Module Scenario.

(** The evaluator is parametric in the rendering [toFixed(2)] of its one
    message with an amount; the scenarios, which never reach that message,
    run it with this stand-in. *)
Definition toFixed2 (x : float) : string := "0.00".

(** Scenario A: coupon SAVE10, 10 percent. *)
Definition save10 : Coupon.Coupon :=
  {| Coupon.id := "c-1"; Coupon.code := "SAVE10";
     Coupon.discount_type := Coupon.percentage;
     Coupon.discount_value := 10%float;
     Coupon.minimum_order_amount := Some 50%float;
     Coupon.max_uses := Some 100; Coupon.current_uses := 3;
     Coupon.one_per_customer := false;
     Coupon.valid_from := Js.Time 1000;
     Coupon.valid_until := Some (Js.Time 9000);
     Coupon.active := true;
     Coupon.applicable_to := Coupon.all;
     Coupon.product_ids := None |}.

(** A coupon restricted to one product. *)
Definition onlyWidget : Coupon.Coupon :=
  {| Coupon.id := "c-2"; Coupon.code := "WIDGET5";
     Coupon.discount_type := Coupon.fixed;
     Coupon.discount_value := 5%float;
     Coupon.minimum_order_amount := None;
     Coupon.max_uses := None; Coupon.current_uses := 0;
     Coupon.one_per_customer := false;
     Coupon.valid_from := Js.Time 1000;
     Coupon.valid_until := None;
     Coupon.active := true;
     Coupon.applicable_to := Coupon.specific;
     Coupon.product_ids := Some ["widget"] |}.

(** Scenario B: one line item, price 20, one modifier of +5, quantity 3. *)
Definition sizeLarge : Modifier.t :=
  {| Modifier.groupId := "size"; Modifier.groupLabel := "Size";
     Modifier.optionId := "l"; Modifier.optionLabel := "Large";
     Modifier.priceAdjustment := 5%float |}.

Definition widget (quantity : Z) : Item.t :=
  {| Item.id := "widget"; Item.name := "Widget"; Item.price := 20%float;
     Item.quantity := quantity; Item.selectedModifiers := Some [sizeLarge] |}.

Definition gadget (quantity : Z) : Item.t :=
  {| Item.id := "gadget"; Item.name := "Gadget"; Item.price := 7.5%float;
     Item.quantity := quantity; Item.selectedModifiers := None |}.

Definition address : Address.t :=
  {| Address.name := "Ada"; Address.email := Some "ada@example.org";
     Address.addressLine1 := "1 Main St"; Address.addressLine2 := "";
     Address.city := "Town"; Address.state := "ST"; Address.zip := "00000";
     Address.country := "US"; Address.phone := None |}.

Definition order (items : list Item.t) (total : float) : CreateOrder.Data :=
  {| CreateOrder.items := items; CreateOrder.totalAmount := total;
     CreateOrder.shippingAddress := address;
     CreateOrder.shippingCost := None; CreateOrder.couponCode := None;
     CreateOrder.couponDiscount := None |}.

Definition allowed : Http.RateLimit :=
  {| Http.isAllowed := true; Http.retryAfter := 0 |}.

Definition createEnv : CreateOrder.Env :=
  {| CreateOrder.rateLimit := allowed; CreateOrder.timestamp := "1700000000000";
     CreateOrder.randomSuffix := "K3J9Q2A"; CreateOrder.newId := "order-1" |}.

Definition createOk : CreateOrder.Faults :=
  {| CreateOrder.productFetchFails := fun _ => false;
     CreateOrder.insertFails := false |}.

(** A catalogue with [stock] widgets and 4 gadgets, and no order. *)
Definition catalogue (stock : Z) : Store.Db :=
  {| Store.products :=
       <["widget" := {| Product.name := "Widget"; Product.price := 20%float;
                        Product.stock := stock |}]>
       (<["gadget" := {| Product.name := "Gadget"; Product.price := 7.5%float;
                         Product.stock := 4 |}]> ∅);
     Store.orders := ∅ |}.

(** The order of scenario B as the creation handler stores it. *)
Definition pendingOrder (items : list Item.t) : Order.t :=
  CreateOrder.newOrder createEnv (order items 75%float).

(** The catalogue with that order stored under the id "order-1". *)
Definition shop (stock : Z) (items : list Item.t) : Store.Db :=
  Store.with_orders (<["order-1" := pendingOrder items]> ∅) (catalogue stock).

Definition settleEnv : MarkPaid.Env :=
  {| MarkPaid.rateLimit := allowed; MarkPaid.now := 1700000100000 |}.

Definition settleOk : MarkPaid.Faults :=
  {| MarkPaid.orderFetchFails := false;
     MarkPaid.productFetchFails := fun _ => false;
     MarkPaid.stockUpdateFails := fun _ => false;
     MarkPaid.statusUpdateFails := false |}.

(** Only the final status update fails. *)
Definition statusUpdateDown : MarkPaid.Faults :=
  {| MarkPaid.orderFetchFails := false;
     MarkPaid.productFetchFails := fun _ => false;
     MarkPaid.stockUpdateFails := fun _ => false;
     MarkPaid.statusUpdateFails := true |}.

(** The stock of a product, when the table has it. *)
Definition stockOf (id : string) (db : Store.Db) : option Z :=
  Product.stock <$> Store.products db !! id.

(** An invoice request for the order, with a currency preference. *)
Definition invoiceData (preferredCrypto : option CreateInvoice.Crypto)
    : CreateInvoice.Data :=
  {| CreateInvoice.amount := 75%float; CreateInvoice.currency := "USD";
     CreateInvoice.orderId := "order-1";
     CreateInvoice.buyerEmail := Some "ada@example.org";
     CreateInvoice.preferredCrypto := preferredCrypto |}.

(** A gateway that issues the invoice. *)
Definition gatewayUp (req : CreateInvoice.InvoiceRequest)
    : CreateInvoice.GatewayReply :=
  CreateInvoice.Invoice "inv-1" "https://pay.example.org/i/inv-1" "75" "USD" "New".

(** An order that was shipped an hour before the sweep at time 7200000,
    with its tracking fields, to the given address. *)
Definition shippedOrder (email : option string) : Order.t :=
  let o := pendingOrder [widget 3] in
  {| Order.order_number := Order.order_number o;
     Order.payment_method := Order.payment_method o;
     Order.status := "shipped";
     Order.total_amount := Order.total_amount o; Order.items := Order.items o;
     Order.shipping_name := Order.shipping_name o; Order.shipping_email := email;
     Order.shipping_address_line1 := Order.shipping_address_line1 o;
     Order.shipping_address_line2 := Order.shipping_address_line2 o;
     Order.shipping_city := Order.shipping_city o;
     Order.shipping_state := Order.shipping_state o;
     Order.shipping_zip := Order.shipping_zip o;
     Order.shipping_country := Order.shipping_country o;
     Order.shipping_phone := Order.shipping_phone o;
     Order.shipping_cost := Order.shipping_cost o;
     Order.coupon_code := Order.coupon_code o;
     Order.coupon_discount := Order.coupon_discount o;
     Order.btcpay_invoice_id := Some "inv-1";
     Order.paid_at := Some 1000;
     Order.tracking_number := Some "1Z999";
     Order.shipping_tracking_url := Some "https://track.example.org/1Z999";
     Order.shipping_notification_scheduled_at := Some 3600000;
     Order.shipping_notification_sent_at := None |}.

Definition shipped (email : option string) : Sweep.World :=
  {| Sweep.db := Store.with_orders (<["order-1" := shippedOrder email]> ∅) (catalogue 7);
     Sweep.outbox := [] |}.

Definition sweepEnv : Sweep.Env :=
  {| Sweep.now := 7200000; Sweep.stampedAt := fun _ => 7200005 |}.

Definition sweepOk : Sweep.Faults :=
  {| Sweep.queryFails := false; Sweep.sendFails := fun _ => false;
     Sweep.stampFails := fun _ => false |}.

(** The mail goes out, the update that stamps the order fails. *)
Definition stampDown : Sweep.Faults :=
  {| Sweep.queryFails := false; Sweep.sendFails := fun _ => false;
     Sweep.stampFails := fun _ => true |}.

Definition mailerDown : Sweep.Faults :=
  {| Sweep.queryFails := false; Sweep.sendFails := fun _ => true;
     Sweep.stampFails := fun _ => false |}.

End Scenario.

(* ===================================================================== *)
(** * Facts about binary64 comparison *)
(* ===================================================================== *)

Lemma SFcompare_swap x y :
  SFcompare y x = option_map CompOpp (SFcompare x y).
Proof.
  destruct x as [sx|sx| |sx mx ex], y as [sy|sy| |sy my ey]; simpl;
    try reflexivity; try (destruct sx; reflexivity); try (destruct sy; reflexivity);
    try (destruct sx, sy; reflexivity).
  destruct sx, sy; simpl; try reflexivity;
    rewrite (Z.compare_antisym ex ey); destruct (ex ?= ey); simpl; try reflexivity;
    rewrite (Pos.compare_cont_antisym mx my Eq); simpl; try reflexivity.
Qed.

Lemma SFcompare_none x y :
  SFcompare x y = None -> SFcompare x x = None \/ SFcompare y y = None.
Proof.
  destruct x as [sx|sx| |sx mx ex], y as [sy|sy| |sy my ey]; simpl;
    try discriminate; auto.
Qed.

Lemma float_ltb_antisym x y :
  PrimFloat.ltb x y = true -> PrimFloat.ltb y x = false.
Proof.
  rewrite !FloatAxioms.ltb_spec. unfold SFltb.
  rewrite (SFcompare_swap (Prim2SF x) (Prim2SF y)).
  destruct (SFcompare (Prim2SF x) (Prim2SF y)) as [[]|]; simpl; congruence.
Qed.

Lemma float_ltb_irrefl x : PrimFloat.ltb x x = false.
Proof.
  destruct (PrimFloat.ltb x x) eqn:E; [|reflexivity].
  pose proof (float_ltb_antisym _ _ E). congruence.
Qed.

Lemma float_ltb_nan_r x : PrimFloat.ltb x PrimFloat.nan = false.
Proof.
  rewrite FloatAxioms.ltb_spec. unfold SFltb.
  change (Prim2SF PrimFloat.nan) with S754_nan.
  destruct (Prim2SF x); reflexivity.
Qed.

Lemma float_not_nan_compare x :
  PrimFloat.is_nan x = false -> SFcompare (Prim2SF x) (Prim2SF x) = Some Eq.
Proof.
  unfold PrimFloat.is_nan. rewrite FloatAxioms.eqb_spec. unfold SFeqb.
  destruct (SFcompare (Prim2SF x) (Prim2SF x)) as [[]|]; simpl; congruence.
Qed.

Lemma float_leb_of_not_ltb x y :
  PrimFloat.is_nan x = false -> PrimFloat.is_nan y = false ->
  PrimFloat.ltb y x = false -> PrimFloat.leb x y = true.
Proof.
  intros Hx Hy. rewrite FloatAxioms.ltb_spec, FloatAxioms.leb_spec.
  unfold SFltb, SFleb.
  rewrite (SFcompare_swap (Prim2SF x) (Prim2SF y)).
  destruct (SFcompare (Prim2SF x) (Prim2SF y)) as [[]|] eqn:E; simpl; try congruence.
  apply SFcompare_none in E.
  apply float_not_nan_compare in Hx. apply float_not_nan_compare in Hy.
  destruct E; congruence.
Qed.

Lemma float_leb_refl x : PrimFloat.is_nan x = false -> PrimFloat.leb x x = true.
Proof.
  intros Hx. rewrite FloatAxioms.leb_spec. unfold SFleb.
  now rewrite (float_not_nan_compare _ Hx).
Qed.

Lemma float_ltb_leb x y : PrimFloat.ltb x y = true -> PrimFloat.leb x y = true.
Proof.
  rewrite FloatAxioms.ltb_spec, FloatAxioms.leb_spec. unfold SFltb, SFleb.
  destruct (SFcompare (Prim2SF x) (Prim2SF y)) as [[]|]; simpl; congruence.
Qed.

(** [Math.min] returns one of its arguments, or [NaN] when one of them is. *)
Lemma Math_min_cases a b :
  (PrimFloat.is_nan a || PrimFloat.is_nan b = true /\ Js.Math_min a b = PrimFloat.nan)
  \/ (PrimFloat.is_nan a = false /\ PrimFloat.is_nan b = false
      /\ (Js.Math_min a b = a /\ PrimFloat.ltb b a = false
          \/ Js.Math_min a b = b /\ PrimFloat.ltb a b = false)).
Proof.
  unfold Js.Math_min.
  destruct (PrimFloat.is_nan a) eqn:Ha; [left; auto|].
  destruct (PrimFloat.is_nan b) eqn:Hb; [left; auto|]. simpl.
  right. repeat split; trivial.
  destruct (PrimFloat.ltb a b) eqn:Hab.
  - left. split; trivial. now apply float_ltb_antisym.
  - destruct (PrimFloat.ltb b a) eqn:Hba; [right; auto|].
    destruct (PrimFloat.get_sign a); auto.
Qed.

(** The second argument is never below the result. *)
Lemma Math_min_not_above a b : PrimFloat.ltb b (Js.Math_min a b) = false.
Proof.
  destruct (Math_min_cases a b) as [[_ ->]|(_ & _ & [[-> H]|[-> _]])].
  - apply float_ltb_nan_r.
  - exact H.
  - apply float_ltb_irrefl.
Qed.

(** When it is a number, the result is below or equal to both arguments. *)
Lemma Math_min_le a b :
  PrimFloat.is_nan (Js.Math_min a b) = false ->
  PrimFloat.leb (Js.Math_min a b) a = true
  /\ PrimFloat.leb (Js.Math_min a b) b = true.
Proof.
  destruct (Math_min_cases a b) as [[_ ->]|(Ha & Hb & [[-> H]|[-> H]])].
  - discriminate.
  - intros _. split; [now apply float_leb_refl | now apply float_leb_of_not_ltb].
  - intros _. split; [now apply float_leb_of_not_ltb | now apply float_leb_refl].
Qed.

(* ===================================================================== *)
(** * The coupon evaluator *)
(* ===================================================================== *)

(** The evaluator accepts exactly when every check passes; the accepted
    result carries the capped discount. *)
Lemma validateCoupon_earlier_checks toFixed2 now coupon orderTotal email cart :
  Spec.passesEarlierChecks now coupon orderTotal = true ->
  Coupon.validateCoupon toFixed2 now coupon orderTotal email cart =
    if match Coupon.applicable_to coupon, Coupon.product_ids coupon, cart with
       | Coupon.specific, Some pids, Some ids =>
           negb (Js.some (fun i => Js.includes pids i) ids)
       | _, _, _ => false
       end
    then Coupon.invalid "This coupon is not applicable to items in your cart"
    else {| Coupon.valid := true; Coupon.error := None;
            Coupon.discount :=
              Some (Js.Math_min (Spec.uncappedDiscount coupon orderTotal) orderTotal) |}.
Proof.
  unfold Spec.passesEarlierChecks, Coupon.validateCoupon.
  rewrite !andb_true_iff, !negb_true_iff.
  intros ((((-> & ->) & ->) & ->) & ->). reflexivity.
Qed.

Lemma validateCoupon_valid_inv toFixed2 now coupon orderTotal email cart :
  Coupon.valid (Coupon.validateCoupon toFixed2 now coupon orderTotal email cart) = true ->
  Coupon.validateCoupon toFixed2 now coupon orderTotal email cart =
    {| Coupon.valid := true; Coupon.error := None;
       Coupon.discount :=
         Some (Js.Math_min (Spec.uncappedDiscount coupon orderTotal) orderTotal) |}.
Proof.
  unfold Coupon.validateCoupon, Spec.uncappedDiscount.
  repeat match goal with
         | |- context [if ?c then Coupon.invalid _ else _] =>
             destruct c; [simpl; discriminate|]
         end.
  reflexivity.
Qed.

(** C6: for every coupon the evaluator accepts, the returned discount is
    min(subtotal x value / 100, subtotal) for a percentage coupon and
    min(value, subtotal) for a fixed one; the subtotal is never below it
    and, when the discount is a number, it is below or equal to the
    subtotal. *)
Theorem coupon_discount_capped toFixed2 now coupon orderTotal email cart :
  Coupon.valid (Coupon.validateCoupon toFixed2 now coupon orderTotal email cart) = true ->
  exists d,
    Coupon.discount (Coupon.validateCoupon toFixed2 now coupon orderTotal email cart)
      = Some d
    /\ d = match Coupon.discount_type coupon with
           | Coupon.percentage =>
               Js.Math_min
                 (PrimFloat.div (PrimFloat.mul orderTotal (Coupon.discount_value coupon))
                                100%float)
                 orderTotal
           | Coupon.fixed => Js.Math_min (Coupon.discount_value coupon) orderTotal
           end
    /\ PrimFloat.ltb orderTotal d = false
    /\ (PrimFloat.is_nan d = false -> PrimFloat.leb d orderTotal = true).
Proof.
  intros H. rewrite (validateCoupon_valid_inv _ _ _ _ _ _ H). simpl.
  eexists. split; [reflexivity|]. split.
  - unfold Spec.uncappedDiscount. destruct (Coupon.discount_type coupon); reflexivity.
  - split; [apply Math_min_not_above|].
    intros Hn. apply (Math_min_le _ _ Hn).
Qed.

(** Scenario A: SAVE10 (10 percent) on a subtotal of 100 grants 10. *)
Lemma coupon_discount_capped_witness :
  exists d,
    Coupon.discount
      (Coupon.validateCoupon Scenario.toFixed2 5000 Scenario.save10 100%float None None)
      = Some d
    /\ d = 10%float
    /\ PrimFloat.ltb 100%float d = false
    /\ (PrimFloat.is_nan d = false -> PrimFloat.leb d 100%float = true).
Proof.
  destruct (coupon_discount_capped Scenario.toFixed2 5000 Scenario.save10 100%float
              None None eq_refl) as (d & Hd & Heq & Hlt & Hle).
  exists d. split; [exact Hd|]. split; [|split; assumption].
  rewrite Heq. vm_compute. reflexivity.
Defined.

(** C7, as stated, fails on the code: a coupon restricted to a product set
    that passes the earlier checks is accepted when no cart product id list
    is supplied. *)
Lemma specific_coupon_without_cart_list_accepted :
  Coupon.applicable_to Scenario.onlyWidget = Coupon.specific
  /\ Coupon.product_ids Scenario.onlyWidget = Some ["widget"]
  /\ Spec.passesEarlierChecks 5000 Scenario.onlyWidget 100%float = true
  /\ Coupon.validateCoupon Scenario.toFixed2 5000 Scenario.onlyWidget 100%float None None
     = {| Coupon.valid := true; Coupon.error := None;
          Coupon.discount := Some 5%float |}.
Proof. vm_compute. repeat split. Qed.

Lemma includes_In pids i : Js.includes pids i = true <-> In i pids.
Proof.
  unfold Js.includes. rewrite existsb_exists. split.
  - intros (x & Hx & Heq). apply String.eqb_eq in Heq. now subst.
  - intros H. exists i. split; [exact H | apply String.eqb_refl].
Qed.

Lemma some_includes pids ids :
  Js.some (fun i => Js.includes pids i) ids = true
  <-> exists i, In i ids /\ In i pids.
Proof.
  unfold Js.some. rewrite existsb_exists.
  split; intros (i & Hi & H); exists i; split; trivial; now apply includes_In.
Qed.

(** C7 (amended): for a coupon restricted to a product set that passes the
    earlier checks, a supplied cart product id list (empty or not) with no
    id in the coupon's product id set gives the error "This coupon is not
    applicable to items in your cart", and one with an id in the set is
    accepted; when no list is supplied, or the coupon has no product id
    set, the check is skipped and the coupon is accepted. *)
Theorem specific_coupon_applicability toFixed2 now coupon orderTotal email :
  Spec.passesEarlierChecks now coupon orderTotal = true ->
  Coupon.applicable_to coupon = Coupon.specific ->
  (forall pids ids,
      Coupon.product_ids coupon = Some pids ->
      (forall i, In i ids -> ~ In i pids) ->
      Coupon.validateCoupon toFixed2 now coupon orderTotal email (Some ids)
      = Coupon.invalid "This coupon is not applicable to items in your cart")
  /\ (forall pids ids i,
      Coupon.product_ids coupon = Some pids -> In i ids -> In i pids ->
      Coupon.valid (Coupon.validateCoupon toFixed2 now coupon orderTotal email (Some ids))
      = true)
  /\ Coupon.valid (Coupon.validateCoupon toFixed2 now coupon orderTotal email None) = true
  /\ (Coupon.product_ids coupon = None ->
      forall cart,
        Coupon.valid (Coupon.validateCoupon toFixed2 now coupon orderTotal email cart)
        = true).
Proof.
  intros Hpass Hspec.
  repeat split.
  - intros pids ids Hp Hnone.
    rewrite (validateCoupon_earlier_checks _ _ _ _ _ _ Hpass), Hspec, Hp.
    destruct (Js.some _ ids) eqn:E; [|reflexivity].
    apply some_includes in E. destruct E as (i & Hi & Hin).
    destruct (Hnone i Hi Hin).
  - intros pids ids i Hp Hi Hin.
    rewrite (validateCoupon_earlier_checks _ _ _ _ _ _ Hpass), Hspec, Hp.
    assert (E : Js.some (fun i => Js.includes pids i) ids = true)
      by (apply some_includes; eauto).
    rewrite E. reflexivity.
  - rewrite (validateCoupon_earlier_checks _ _ _ _ _ _ Hpass), Hspec.
    destruct (Coupon.product_ids coupon); reflexivity.
  - intros Hp cart.
    rewrite (validateCoupon_earlier_checks _ _ _ _ _ _ Hpass), Hspec, Hp.
    reflexivity.
Qed.

(** The product-restricted coupon on an empty cart list and on a cart
    without the product. *)
Lemma specific_coupon_applicability_witness :
  Coupon.validateCoupon Scenario.toFixed2 5000 Scenario.onlyWidget 100%float None (Some [])
  = Coupon.invalid "This coupon is not applicable to items in your cart"
  /\ Coupon.validateCoupon Scenario.toFixed2 5000 Scenario.onlyWidget 100%float None
       (Some ["gadget"])
     = Coupon.invalid "This coupon is not applicable to items in your cart".
Proof.
  destruct (specific_coupon_applicability Scenario.toFixed2 5000 Scenario.onlyWidget
              100%float None eq_refl eq_refl) as (H & _).
  split; apply (H ["widget"]); try reflexivity.
  - intros i [].
  - intros i [<-|[]] [E|[]]. discriminate E.
Defined.

(* ===================================================================== *)
(** * Order creation *)
(* ===================================================================== *)

Lemma fold_left_add_map {A} (f : A -> float) (l : list A) (acc : float) :
  fold_left (fun sum x => PrimFloat.add sum (f x)) l acc
  = fold_left PrimFloat.add (List.map f l) acc.
Proof.
  revert acc. induction l as [|x l IH]; intros acc; simpl; [reflexivity|apply IH].
Qed.

Lemma modifierTotal_spec item :
  CreateOrder.modifierTotal item = Spec.modifierDeltas item.
Proof.
  unfold CreateOrder.modifierTotal, Spec.modifierDeltas.
  destruct (Item.selectedModifiers item); simpl; [apply fold_left_add_map|reflexivity].
Qed.

Lemma calculatedTotal_spec d :
  CreateOrder.calculatedTotal d
  = Spec.expectedTotal (CreateOrder.items d) (CreateOrder.shippingCost d)
      (CreateOrder.couponDiscount d).
Proof.
  unfold CreateOrder.calculatedTotal, Spec.expectedTotal, CreateOrder.calculatedSubtotal.
  rewrite fold_left_add_map. do 3 f_equal.
  apply map_ext. intros item. unfold CreateOrder.itemTotal, Spec.lineTotal.
  now rewrite modifierTotal_spec.
Qed.

(** The stock loop over a list that is cut in two. *)
Lemma checkStock_app fetchFails i pre post db :
  CreateOrder.checkStock fetchFails i (pre ++ post)%list db
  = match CreateOrder.checkStock fetchFails i pre db with
    | Some r => Some r
    | None => CreateOrder.checkStock fetchFails (i + length pre)%nat post db
    end.
Proof.
  revert i. induction pre as [|item pre IH]; intros i; simpl.
  - now rewrite Nat.add_0_r.
  - destruct (Store.select_product _ _ db) as [product|]; [|reflexivity].
    destruct (Product.stock product <? Item.quantity item); [reflexivity|].
    rewrite IH. now rewrite Nat.add_succ_r.
Qed.

(** The handler writes to the datastore only when it answers 200: every
    other response leaves the datastore as it was. *)
Lemma create_order_writes_only_on_success env faults request db :
  Http.status (fst (CreateOrder.POST env faults request db)) <> 200 ->
  snd (CreateOrder.POST env faults request db) = db.
Proof.
  unfold CreateOrder.POST.
  destruct (negb _); [reflexivity|].
  destruct request as [| |d]; try reflexivity.
  destruct (CreateOrder.checkStock _ _ _ _); [reflexivity|].
  destruct (CreateOrder.totalMismatch d); [reflexivity|].
  unfold Store.insert_order.
  destruct (CreateOrder.insertFails faults); [reflexivity|].
  destruct (Store.orders db !! _); [reflexivity|].
  simpl. intros H. now destruct H.
Qed.

Lemma create_order_mismatch_no_write env faults d db :
  CreateOrder.totalMismatch d = true ->
  snd (CreateOrder.POST env faults (Http.Validated d) db) = db.
Proof.
  intros H. unfold CreateOrder.POST. rewrite H.
  destruct (negb _); [reflexivity|].
  destruct (CreateOrder.checkStock _ _ _ _); reflexivity.
Qed.

(** C1: the handler recomputes the total as the sum over the line items of
    (unit price + modifier deltas) x quantity, plus shipping, minus the
    coupon discount; when it differs from the supplied total by more than
    0.01 no order is persisted and (once the rate limit and the stock check
    are passed) the request is rejected; otherwise, when the insert goes
    through, an order with status "pending" is created. The total of the
    row is the supplied total as the handler hands it to the insert; the
    table's DECIMAL(10,2) column may round what the datastore keeps. *)
Theorem create_order_total_check env faults d db :
  CreateOrder.totalMismatch d
  = PrimFloat.ltb 0.01%float
      (PrimFloat.abs
         (PrimFloat.sub
            (Spec.expectedTotal (CreateOrder.items d) (CreateOrder.shippingCost d)
               (CreateOrder.couponDiscount d))
            (CreateOrder.totalAmount d)))
  /\ (CreateOrder.totalMismatch d = true ->
      snd (CreateOrder.POST env faults (Http.Validated d) db) = db
      /\ (Http.isAllowed (CreateOrder.rateLimit env) = true ->
          CreateOrder.checkStock (CreateOrder.productFetchFails faults) 0
            (CreateOrder.items d) db = None ->
          fst (CreateOrder.POST env faults (Http.Validated d) db)
          = Http.json 400 (Http.Error "Order total validation failed")))
  /\ (CreateOrder.totalMismatch d = false ->
      Http.isAllowed (CreateOrder.rateLimit env) = true ->
      CreateOrder.checkStock (CreateOrder.productFetchFails faults) 0
        (CreateOrder.items d) db = None ->
      CreateOrder.insertFails faults = false ->
      Store.orders db !! CreateOrder.newId env = None ->
      exists row,
        CreateOrder.POST env faults (Http.Validated d) db
        = (Http.json 200
             (Http.OrderCreated (CreateOrder.newId env) (CreateOrder.orderNumber env)),
           Store.with_orders (<[CreateOrder.newId env := row]> (Store.orders db)) db)
        /\ Order.status row = "pending"
        /\ Order.total_amount row = CreateOrder.totalAmount d
        /\ Order.items row = CreateOrder.items d).
Proof.
  split; [|split].
  - unfold CreateOrder.totalMismatch, Js.Math_abs. now rewrite calculatedTotal_spec.
  - intros Hm. split; [now apply create_order_mismatch_no_write|].
    intros Hr Hs. unfold CreateOrder.POST. now rewrite Hr, Hs, Hm.
  - intros Hm Hr Hs Hi Hfresh. exists (CreateOrder.newOrder env d).
    unfold CreateOrder.POST, Store.insert_order. rewrite Hr, Hs, Hm, Hi, Hfresh.
    simpl. auto.
Qed.

(** Scenario B: (20 + 5) x 3 = 75. A supplied total of 75 is accepted and
    the order stored as pending; a supplied total of 70 is rejected and
    nothing is stored. *)
Lemma create_order_total_check_witness :
  Spec.expectedTotal [Scenario.widget 3] None None = 75%float
  /\ CreateOrder.POST Scenario.createEnv Scenario.createOk
       (Http.Validated (Scenario.order [Scenario.widget 3] 70%float))
       (Scenario.catalogue 10)
     = (Http.json 400 (Http.Error "Order total validation failed"),
        Scenario.catalogue 10)
  /\ exists row,
       CreateOrder.POST Scenario.createEnv Scenario.createOk
         (Http.Validated (Scenario.order [Scenario.widget 3] 75%float))
         (Scenario.catalogue 10)
       = (Http.json 200 (Http.OrderCreated "order-1" "ORD-1700000000000-K3J9Q2A"),
          Store.with_orders (<["order-1" := row]> ∅) (Scenario.catalogue 10))
       /\ Order.status row = "pending".
Proof.
  split; [vm_compute; reflexivity|]. split.
  - destruct (create_order_total_check Scenario.createEnv Scenario.createOk
                (Scenario.order [Scenario.widget 3] 70%float) (Scenario.catalogue 10))
      as (_ & Hrej & _).
    destruct (Hrej eq_refl) as (Hdb & Hresp).
    specialize (Hresp eq_refl eq_refl).
    rewrite (surjective_pairing (CreateOrder.POST _ _ _ _)), Hdb, Hresp. reflexivity.
  - destruct (create_order_total_check Scenario.createEnv Scenario.createOk
                (Scenario.order [Scenario.widget 3] 75%float) (Scenario.catalogue 10))
      as (_ & _ & Hacc).
    destruct (Hacc eq_refl eq_refl eq_refl eq_refl eq_refl) as (row & Hpost & Hst & _).
    exists row. split; [exact Hpost | exact Hst].
Defined.

(** C8: the stock loop fetches the product of every line item in turn; at
    the first item whose product cannot be fetched the request fails with
    "Product <name> not found", and at the first item that asks for more
    than the stock it fails with the insufficient-stock error carrying the
    product name and the available quantity; in both cases the datastore is
    left unchanged (no order is created). *)
Theorem create_order_stock_validation env faults d db pre item post :
  Http.isAllowed (CreateOrder.rateLimit env) = true ->
  CreateOrder.items d = (pre ++ item :: post)%list ->
  CreateOrder.checkStock (CreateOrder.productFetchFails faults) 0 pre db = None ->
  (Store.select_product (CreateOrder.productFetchFails faults (length pre))
     (Item.id item) db = None ->
   CreateOrder.POST env faults (Http.Validated d) db
   = (Http.json 400 (Http.Error ("Product " ++ Item.name item ++ " not found")), db))
  /\ (forall product,
      Store.select_product (CreateOrder.productFetchFails faults (length pre))
        (Item.id item) db = Some product ->
      Product.stock product < Item.quantity item ->
      CreateOrder.POST env faults (Http.Validated d) db
      = (Http.json 400
           (Http.InsufficientStock
              ("Insufficient stock for " ++ Item.name item ++ ". Only "
               ++ pretty (Product.stock product) ++ " available.")
              (Item.name item) (Product.stock product)),
         db)).
Proof.
  intros Hr Hitems Hpre.
  assert (Hcs : CreateOrder.checkStock (CreateOrder.productFetchFails faults) 0
                  (CreateOrder.items d) db
                = CreateOrder.checkStock (CreateOrder.productFetchFails faults)
                    (length pre) (item :: post) db)
    by (rewrite Hitems, checkStock_app, Hpre; reflexivity).
  split.
  - intros Hsel. unfold CreateOrder.POST. rewrite Hr, Hcs. simpl. now rewrite Hsel.
  - intros product Hsel Hlt. unfold CreateOrder.POST. rewrite Hr, Hcs. simpl.
    rewrite Hsel. apply Z.ltb_lt in Hlt. now rewrite Hlt.
Qed.

(** Scenario C: stock 2, requested quantity 5 (after a line that passes);
    and a product that is not in the catalogue. *)
Lemma create_order_stock_validation_witness :
  CreateOrder.POST Scenario.createEnv Scenario.createOk
    (Http.Validated (Scenario.order [Scenario.gadget 1; Scenario.widget 5] 132.5%float))
    (Scenario.catalogue 2)
  = (Http.json 400
       (Http.InsufficientStock "Insufficient stock for Widget. Only 2 available."
          "Widget" 2),
     Scenario.catalogue 2).
Proof.
  destruct (create_order_stock_validation Scenario.createEnv Scenario.createOk
              (Scenario.order [Scenario.gadget 1; Scenario.widget 5] 132.5%float)
              (Scenario.catalogue 2) [Scenario.gadget 1] (Scenario.widget 5) []
              eq_refl eq_refl eq_refl) as (_ & H).
  exact (H {| Product.name := "Widget"; Product.price := 20%float; Product.stock := 2 |}
           eq_refl eq_refl).
Defined.

(* ===================================================================== *)
(** * Settlement (mark-paid) *)
(* ===================================================================== *)

Lemma decrementItem_orders fetchFails updateFails item db :
  Store.orders (MarkPaid.decrementItem fetchFails updateFails item db)
  = Store.orders db.
Proof.
  unfold MarkPaid.decrementItem, Store.select_product, Store.update_stock.
  destruct fetchFails; [reflexivity|].
  destruct (Store.products db !! Item.id item); [|reflexivity].
  destruct updateFails; reflexivity.
Qed.

Lemma decrementStock_orders faults i items db :
  Store.orders (MarkPaid.decrementStock faults i items db) = Store.orders db.
Proof.
  revert i db. induction items as [|item items IH]; intros i db; simpl.
  - reflexivity.
  - rewrite IH. apply decrementItem_orders.
Qed.

(** What one turn of the stock loop leaves in the products table. *)
Lemma decrementItem_lookup fetchFails updateFails item db k :
  Store.products (MarkPaid.decrementItem fetchFails updateFails item db) !! k
  = if fetchFails || updateFails then Store.products db !! k
    else if decide (k = Item.id item)
         then (fun p => Product.with_stock
                          (Z.max 0 (Product.stock p - Item.quantity item)) p)
              <$> Store.products db !! k
         else Store.products db !! k.
Proof.
  unfold MarkPaid.decrementItem, Store.select_product, Store.update_stock.
  destruct fetchFails; [reflexivity|]. simpl.
  destruct (Store.products db !! Item.id item) as [p|] eqn:E.
  - destruct updateFails; [reflexivity|]. simpl.
    destruct (decide (k = Item.id item)) as [->|Hne].
    + rewrite lookup_alter_eq, E. reflexivity.
    + rewrite lookup_alter_ne by congruence. reflexivity.
  - destruct updateFails; [reflexivity|].
    destruct (decide (k = Item.id item)) as [->|Hne]; [|reflexivity].
    now rewrite E.
Qed.

Lemma decrementItem_nonneg fetchFails updateFails item db :
  Spec.stockNonNegative db ->
  Spec.stockNonNegative (MarkPaid.decrementItem fetchFails updateFails item db).
Proof.
  intros Hdb k p. rewrite decrementItem_lookup.
  destruct (fetchFails || updateFails); [apply Hdb|].
  destruct (decide (k = Item.id item)); [|apply Hdb].
  destruct (Store.products db !! k) as [q|]; simpl; [|discriminate].
  intros [= <-]. simpl. lia.
Qed.

Lemma decrementStock_nonneg faults i items db :
  Spec.stockNonNegative db ->
  Spec.stockNonNegative (MarkPaid.decrementStock faults i items db).
Proof.
  revert i db. induction items as [|item items IH]; intros i db H; simpl.
  - exact H.
  - apply IH. now apply decrementItem_nonneg.
Qed.

(** The response and datastore of a call on an order that is not yet
    paid, once the rate limit is passed and the order fetched. *)
Lemma mark_paid_unpaid env faults orderId db o :
  Http.isAllowed (MarkPaid.rateLimit env) = true ->
  MarkPaid.orderFetchFails faults = false ->
  Store.orders db !! orderId = Some o ->
  Order.status o <> "paid" ->
  MarkPaid.POST env faults (Http.Validated orderId) db
  = let db1 := MarkPaid.decrementStock faults 0 (Order.items o) db in
    if MarkPaid.statusUpdateFails faults
    then (Http.json 500 (Http.Error "Failed to update order"), db1)
    else (Http.json 200 (Http.Success None),
          Store.with_orders
            (<[orderId := Order.mark_paid (MarkPaid.now env) o]> (Store.orders db)) db1).
Proof.
  intros Hr Hf Ho Hs. unfold MarkPaid.POST, Store.select_order, Store.update_order.
  rewrite Hr, Hf, Ho. simpl.
  destruct (String.eqb_spec (Order.status o) "paid") as [E|_]; [contradiction|].
  destruct (MarkPaid.statusUpdateFails faults); [reflexivity|].
  simpl. rewrite decrementStock_orders.
  do 2 f_equal. unfold Store.with_orders. f_equal.
  apply map_eq. intros k. destruct (decide (k = orderId)) as [->|Hne].
  - now rewrite lookup_alter_eq, lookup_insert_eq, Ho.
  - now rewrite lookup_alter_ne, lookup_insert_ne by congruence.
Qed.

(** A call on an order whose stored status is "paid" changes nothing. *)
Lemma mark_paid_paid env faults orderId db o :
  Store.orders db !! orderId = Some o ->
  Order.status o = "paid" ->
  snd (MarkPaid.POST env faults (Http.Validated orderId) db) = db
  /\ (Http.isAllowed (MarkPaid.rateLimit env) = true ->
      MarkPaid.orderFetchFails faults = false ->
      fst (MarkPaid.POST env faults (Http.Validated orderId) db)
      = Http.json 200 (Http.Success (Some "Order already marked as paid"))).
Proof.
  intros Ho Hs. unfold MarkPaid.POST, Store.select_order.
  destruct (negb _) eqn:Hr; simpl.
  - split; [reflexivity|]. intros H. rewrite H in Hr. discriminate.
  - destruct (MarkPaid.orderFetchFails faults); simpl.
    + split; [reflexivity|discriminate].
    + rewrite Ho, Hs. simpl. auto.
Qed.

(** A call that answers plain success has stored the status "paid". *)
Lemma mark_paid_success_inv env faults orderId db db1 :
  MarkPaid.POST env faults (Http.Validated orderId) db
  = (Http.json 200 (Http.Success None), db1) ->
  exists o, Store.orders db !! orderId = Some o
            /\ Store.orders db1 !! orderId = Some (Order.mark_paid (MarkPaid.now env) o)
            /\ Store.products db1
               = Store.products (MarkPaid.decrementStock faults 0 (Order.items o) db).
Proof.
  unfold MarkPaid.POST, Store.select_order, Store.update_order.
  destruct (negb _); [discriminate|].
  destruct (MarkPaid.orderFetchFails faults); [discriminate|].
  destruct (Store.orders db !! orderId) as [o|] eqn:Ho; [|discriminate].
  destruct (String.eqb _ _); [discriminate|].
  destruct (MarkPaid.statusUpdateFails faults); [discriminate|].
  simpl. intros [= <-]. exists o. split; [reflexivity|]. simpl.
  rewrite decrementStock_orders, lookup_alter_eq, Ho. auto.
Qed.

(** C2: a call of the settlement endpoint for an order whose stored status
    is "paid" leaves the products and the orders as they are and (past the
    rate limit and the order fetch) answers success with "Order already
    marked as paid"; hence after a call that settled the order, a further
    call decrements no stock and changes no order. *)
Theorem mark_paid_idempotent env faults orderId db :
  (forall o,
      Store.orders db !! orderId = Some o ->
      Order.status o = "paid" ->
      snd (MarkPaid.POST env faults (Http.Validated orderId) db) = db
      /\ (Http.isAllowed (MarkPaid.rateLimit env) = true ->
          MarkPaid.orderFetchFails faults = false ->
          fst (MarkPaid.POST env faults (Http.Validated orderId) db)
          = Http.json 200 (Http.Success (Some "Order already marked as paid"))))
  /\ (forall db1 env' faults',
      MarkPaid.POST env faults (Http.Validated orderId) db
      = (Http.json 200 (Http.Success None), db1) ->
      snd (MarkPaid.POST env' faults' (Http.Validated orderId) db1) = db1
      /\ (Http.isAllowed (MarkPaid.rateLimit env') = true ->
          MarkPaid.orderFetchFails faults' = false ->
          fst (MarkPaid.POST env' faults' (Http.Validated orderId) db1)
          = Http.json 200 (Http.Success (Some "Order already marked as paid")))).
Proof.
  split.
  - intros o. apply mark_paid_paid.
  - intros db1 env' faults' H.
    destruct (mark_paid_success_inv _ _ _ _ _ H) as (o & _ & Ho1 & _).
    apply (mark_paid_paid env' faults' orderId db1 _ Ho1). reflexivity.
Qed.

(** Scenario: stock 10, an order of 3 settled twice; the stock goes to 7
    once, and the second call answers that the order is already paid. *)
Lemma mark_paid_idempotent_witness :
  exists db1,
    MarkPaid.POST Scenario.settleEnv Scenario.settleOk (Http.Validated "order-1")
      (Scenario.shop 10 [Scenario.widget 3])
    = (Http.json 200 (Http.Success None), db1)
    /\ Scenario.stockOf "widget" db1 = Some 7
    /\ snd (MarkPaid.POST Scenario.settleEnv Scenario.settleOk (Http.Validated "order-1")
              db1) = db1
    /\ fst (MarkPaid.POST Scenario.settleEnv Scenario.settleOk (Http.Validated "order-1")
              db1)
       = Http.json 200 (Http.Success (Some "Order already marked as paid")).
Proof.
  exists (snd (MarkPaid.POST Scenario.settleEnv Scenario.settleOk
                 (Http.Validated "order-1") (Scenario.shop 10 [Scenario.widget 3]))).
  assert (H : MarkPaid.POST Scenario.settleEnv Scenario.settleOk
                (Http.Validated "order-1") (Scenario.shop 10 [Scenario.widget 3])
              = (Http.json 200 (Http.Success None),
                 snd (MarkPaid.POST Scenario.settleEnv Scenario.settleOk
                        (Http.Validated "order-1")
                        (Scenario.shop 10 [Scenario.widget 3]))))
    by (vm_compute; reflexivity).
  split; [exact H|]. split; [vm_compute; reflexivity|].
  destruct (mark_paid_idempotent Scenario.settleEnv Scenario.settleOk "order-1"
              (Scenario.shop 10 [Scenario.widget 3])) as (_ & Htwice).
  destruct (Htwice _ Scenario.settleEnv Scenario.settleOk H) as (Hdb & Hresp).
  split; [exact Hdb | exact (Hresp eq_refl eq_refl)].
Defined.

Lemma mark_paid_unpaid_products env faults orderId db o :
  Http.isAllowed (MarkPaid.rateLimit env) = true ->
  MarkPaid.orderFetchFails faults = false ->
  Store.orders db !! orderId = Some o ->
  Order.status o <> "paid" ->
  Store.products (snd (MarkPaid.POST env faults (Http.Validated orderId) db))
  = Store.products (MarkPaid.decrementStock faults 0 (Order.items o) db).
Proof.
  intros Hr Hf Ho Hs. rewrite (mark_paid_unpaid _ _ _ _ _ Hr Hf Ho Hs). simpl.
  destruct (MarkPaid.statusUpdateFails faults); reflexivity.
Qed.

Lemma decrementStock_app faults i pre post db :
  MarkPaid.decrementStock faults i (pre ++ post)%list db
  = MarkPaid.decrementStock faults (i + length pre) post
      (MarkPaid.decrementStock faults i pre db).
Proof.
  revert i db. induction pre as [|item pre IH]; intros i db; simpl.
  - now rewrite Nat.add_0_r.
  - rewrite IH. now rewrite Nat.add_succ_r.
Qed.

(** The loop leaves alone the products no line names. *)
Lemma decrementStock_untouched faults i items db k :
  Forall (fun item => Item.id item <> k) items ->
  Store.products (MarkPaid.decrementStock faults i items db) !! k
  = Store.products db !! k.
Proof.
  intros H. revert i db. induction H as [|item items Hne _ IH]; intros i db; simpl.
  - reflexivity.
  - rewrite IH, decrementItem_lookup.
    destruct (_ || _); [reflexivity|].
    destruct (decide (k = Item.id item)); [congruence|reflexivity].
Qed.

(** C4: a turn of the stock loop that fetches and updates the product
    stores max(0, stock - quantity): never a negative number, and exactly 0
    when the quantity is the stock or more; whatever calls fail, the
    settlement endpoint keeps every stock non-negative; and for every line
    item of an order the endpoint settles, when the loop reaches it and
    its fetch and update go through, what the loop writes for its product is
    max(0, current stock - quantity), which is also what the endpoint
    leaves when no later line names the product. *)
Theorem settlement_stock_clamped :
  (forall item db p,
      Store.products db !! Item.id item = Some p ->
      exists p',
        Store.products (MarkPaid.decrementItem false false item db) !! Item.id item
        = Some p'
        /\ Product.stock p' = Z.max 0 (Product.stock p - Item.quantity item)
        /\ 0 <= Product.stock p'
        /\ (Product.stock p <= Item.quantity item -> Product.stock p' = 0))
  /\ (forall env faults request db,
      Spec.stockNonNegative db ->
      Spec.stockNonNegative (snd (MarkPaid.POST env faults request db)))
  /\ (forall env faults orderId db o pre item post p,
      Http.isAllowed (MarkPaid.rateLimit env) = true ->
      MarkPaid.orderFetchFails faults = false ->
      Store.orders db !! orderId = Some o ->
      Order.status o <> "paid" ->
      Order.items o = (pre ++ item :: post)%list ->
      Store.products (MarkPaid.decrementStock faults 0 pre db) !! Item.id item = Some p ->
      MarkPaid.productFetchFails faults (length pre) = false ->
      MarkPaid.stockUpdateFails faults (length pre) = false ->
      let written :=
        Product.with_stock (Z.max 0 (Product.stock p - Item.quantity item)) p in
      Store.products (MarkPaid.decrementStock faults 0 (pre ++ [item])%list db)
        !! Item.id item = Some written
      /\ Store.products (snd (MarkPaid.POST env faults (Http.Validated orderId) db))
         = Store.products
             (MarkPaid.decrementStock faults (S (length pre)) post
                (MarkPaid.decrementStock faults 0 (pre ++ [item])%list db))
      /\ (Forall (fun later => Item.id later <> Item.id item) post ->
          Store.products (snd (MarkPaid.POST env faults (Http.Validated orderId) db))
            !! Item.id item = Some written)).
Proof.
  split; [|split].
  - intros item db p Hp. rewrite decrementItem_lookup. simpl.
    destruct (decide (Item.id item = Item.id item)) as [_|Hne]; [|contradiction].
    rewrite Hp. simpl. eexists. split; [reflexivity|]. simpl.
    split; [reflexivity|]. split; lia.
  - intros env faults request db Hdb. unfold MarkPaid.POST.
    destruct (negb _); [exact Hdb|].
    destruct request as [| |orderId]; try exact Hdb.
    destruct (Store.select_order _ _ _) as [o|]; [|exact Hdb].
    destruct (String.eqb _ _); [exact Hdb|].
    unfold Store.update_order.
    destruct (MarkPaid.statusUpdateFails faults); simpl;
      intros k p Hk; exact (decrementStock_nonneg faults 0 _ db Hdb k p Hk).
  - intros env faults orderId db o pre item post p Hr Hf Ho Hs Hitems Hp Hpf Huf written.
    assert (Hturn : Store.products
                      (MarkPaid.decrementStock faults 0 (pre ++ [item])%list db)
                    !! Item.id item = Some written).
    { rewrite decrementStock_app. cbn [MarkPaid.decrementStock Nat.add].
      rewrite Hpf, Huf, decrementItem_lookup. simpl.
      destruct (decide (Item.id item = Item.id item)) as [_|Hne]; [|contradiction].
      now rewrite Hp. }
    assert (Hall : Store.products
                     (snd (MarkPaid.POST env faults (Http.Validated orderId) db))
                   = Store.products
                       (MarkPaid.decrementStock faults (S (length pre)) post
                          (MarkPaid.decrementStock faults 0 (pre ++ [item])%list db))).
    { rewrite (mark_paid_unpaid_products _ _ _ _ _ Hr Hf Ho Hs), Hitems.
      rewrite (decrementStock_app faults 0 pre (item :: post)).
      rewrite (decrementStock_app faults 0 pre [item]). reflexivity. }
    split; [exact Hturn|]. split; [exact Hall|].
    intros Hlater. rewrite Hall, decrementStock_untouched by exact Hlater.
    exact Hturn.
Qed.

(** Stock 2: a turn for an order of 3 stores 0; and settling an order of
    one gadget and three widgets leaves the widget at 0 and the gadget at 3. *)
Lemma settlement_stock_clamped_witness :
  Scenario.stockOf "widget"
    (MarkPaid.decrementItem false false (Scenario.widget 3) (Scenario.catalogue 2))
  = Some 0
  /\ (let db := Scenario.shop 2 [Scenario.gadget 1; Scenario.widget 3] in
      let db' := snd (MarkPaid.POST Scenario.settleEnv Scenario.settleOk
                        (Http.Validated "order-1") db) in
      Scenario.stockOf "widget" db' = Some 0
      /\ Scenario.stockOf "gadget" db' = Some 3).
Proof.
  destruct settlement_stock_clamped as (Hitem & _ & Hpost).
  split.
  - destruct (Hitem (Scenario.widget 3) (Scenario.catalogue 2)
                {| Product.name := "Widget"; Product.price := 20%float;
                   Product.stock := 2 |} eq_refl) as (p' & Hp' & _ & _ & Hzero).
    unfold Scenario.stockOf. change (Item.id (Scenario.widget 3)) with "widget" in Hp'.
    rewrite Hp'. simpl. f_equal. apply Hzero. simpl. lia.
  - intros db db'.
    assert (Hs : Order.status
                   (Scenario.pendingOrder [Scenario.gadget 1; Scenario.widget 3])
                 <> "paid") by discriminate.
    assert (Hw : Store.products
                   (MarkPaid.decrementStock Scenario.settleOk 0 [Scenario.gadget 1] db)
                 !! Item.id (Scenario.widget 3)
                 = Some {| Product.name := "Widget"; Product.price := 20%float;
                           Product.stock := 2 |}) by (vm_compute; reflexivity).
    destruct (Hpost Scenario.settleEnv Scenario.settleOk "order-1" db
                (Scenario.pendingOrder [Scenario.gadget 1; Scenario.widget 3])
                [Scenario.gadget 1] (Scenario.widget 3) []
                {| Product.name := "Widget"; Product.price := 20%float;
                   Product.stock := 2 |}
                eq_refl eq_refl eq_refl Hs eq_refl Hw eq_refl eq_refl)
      as (_ & _ & Hleft).
    split.
    + unfold Scenario.stockOf, db'.
      change "widget" with (Item.id (Scenario.widget 3)).
      rewrite (Hleft (List.Forall_nil _)). reflexivity.
    + vm_compute. reflexivity.
Defined.


(** C10: the stock decrements are written before the status update; when
    that update fails the endpoint answers 500 "Failed to update order",
    the decrements stay and the orders table is as before (the order is
    still not "paid"), so a retry passes the already-paid check and runs
    the stock loop again on the decremented stock: for an order of one line
    the stock goes to max(0, stock - q) and then max(0, that - q). *)
Theorem mark_paid_status_update_failure env faults orderId db o :
  Http.isAllowed (MarkPaid.rateLimit env) = true ->
  MarkPaid.orderFetchFails faults = false ->
  Store.orders db !! orderId = Some o ->
  Order.status o <> "paid" ->
  MarkPaid.statusUpdateFails faults = true ->
  let db1 := MarkPaid.decrementStock faults 0 (Order.items o) db in
  MarkPaid.POST env faults (Http.Validated orderId) db
  = (Http.json 500 (Http.Error "Failed to update order"), db1)
  /\ Store.orders db1 = Store.orders db
  /\ (forall env' faults',
      Http.isAllowed (MarkPaid.rateLimit env') = true ->
      MarkPaid.orderFetchFails faults' = false ->
      Store.products (snd (MarkPaid.POST env' faults' (Http.Validated orderId) db1))
      = Store.products (MarkPaid.decrementStock faults' 0 (Order.items o) db1))
  /\ (forall env' item p,
      Http.isAllowed (MarkPaid.rateLimit env') = true ->
      Order.items o = [item] ->
      Store.products db !! Item.id item = Some p ->
      MarkPaid.productFetchFails faults 0 = false ->
      MarkPaid.stockUpdateFails faults 0 = false ->
      exists p1 p2,
        Store.products db1 !! Item.id item = Some p1
        /\ Product.stock p1 = Z.max 0 (Product.stock p - Item.quantity item)
        /\ Store.products
             (snd (MarkPaid.POST env' faults (Http.Validated orderId) db1))
           !! Item.id item = Some p2
        /\ Product.stock p2 = Z.max 0 (Product.stock p1 - Item.quantity item)).
Proof.
  intros Hr Hf Ho Hs Hu db1.
  assert (Ho1 : Store.orders db1 !! orderId = Some o)
    by (unfold db1; now rewrite decrementStock_orders).
  split; [|split; [|split]].
  - rewrite (mark_paid_unpaid _ _ _ _ _ Hr Hf Ho Hs), Hu. reflexivity.
  - apply decrementStock_orders.
  - intros env' faults' Hr' Hf'. now apply mark_paid_unpaid_products.
  - intros env' item p Hr' Hitems Hp Hpf Huf.
    rewrite (mark_paid_unpaid_products env' faults orderId db1 o Hr' Hf Ho1 Hs).
    unfold db1. rewrite Hitems. simpl. rewrite Hpf, Huf.
    rewrite !decrementItem_lookup. simpl.
    destruct (decide (Item.id item = Item.id item)) as [_|Hne]; [|contradiction].
    rewrite Hp. simpl. do 2 eexists. repeat split.
Qed.

(** Stock 10 and an order of 3 whose status update fails: the call answers
    500 with the stock at 7, and the retry leaves it at 4. *)
Lemma mark_paid_status_update_failure_witness :
  let db := Scenario.shop 10 [Scenario.widget 3] in
  let db1 := MarkPaid.decrementStock Scenario.statusUpdateDown 0 [Scenario.widget 3] db in
  MarkPaid.POST Scenario.settleEnv Scenario.statusUpdateDown (Http.Validated "order-1") db
  = (Http.json 500 (Http.Error "Failed to update order"), db1)
  /\ Scenario.stockOf "widget" db1 = Some 7
  /\ Scenario.stockOf "widget"
       (snd (MarkPaid.POST Scenario.settleEnv Scenario.settleOk
               (Http.Validated "order-1") db1)) = Some 4.
Proof.
  intros db db1.
  assert (Hs : Order.status (Scenario.pendingOrder [Scenario.widget 3]) <> "paid")
    by discriminate.
  destruct (mark_paid_status_update_failure Scenario.settleEnv Scenario.statusUpdateDown
              "order-1" db (Scenario.pendingOrder [Scenario.widget 3])
              eq_refl eq_refl eq_refl Hs eq_refl) as (Hpost & _ & Hretry & _).
  split; [exact Hpost|]. split; [vm_compute; reflexivity|].
  unfold Scenario.stockOf.
  etransitivity;
    [ apply (f_equal (fun m : gmap string Product.t => Product.stock <$> m !! "widget"));
      exact (Hretry Scenario.settleEnv Scenario.settleOk eq_refl eq_refl)
    | vm_compute; reflexivity ].
Defined.

(* ===================================================================== *)
(** * Invoice creation *)
(* ===================================================================== *)

(** C5, as stated, fails on the code: for the preference "bitcoin" the
    filter sent to the gateway is the single code "BTC"; it holds no second
    (lightning) method code. *)
Lemma bitcoin_preference_sends_single_code :
  snd (CreateInvoice.POST Scenario.allowed Scenario.gatewayUp
         (Http.Validated (Scenario.invoiceData (Some CreateInvoice.bitcoin))))
  = [CreateInvoice.invoiceRequest (Scenario.invoiceData (Some CreateInvoice.bitcoin))]
  /\ CreateInvoice.checkout_paymentMethods
       (CreateInvoice.invoiceRequest (Scenario.invoiceData (Some CreateInvoice.bitcoin)))
     = ["BTC"]
  /\ length (CreateInvoice.paymentMethods (Some CreateInvoice.bitcoin)) = 1%nat.
Proof. vm_compute. repeat split. Qed.

(** C5 (amended): a validated request that passes the rate limit sends the
    gateway exactly one invoice request, whatever the gateway answers, and
    its payment-method filter is ["BTC"] for the preference "bitcoin",
    ["XMR"] for "monero" and ["BTC", "XMR"] when no preference is set. *)
Theorem invoice_payment_method_filter rateLimit gateway d :
  Http.isAllowed rateLimit = true ->
  exists req,
    snd (CreateInvoice.POST rateLimit gateway (Http.Validated d)) = [req]
    /\ CreateInvoice.metadata_orderId req = CreateInvoice.orderId d
    /\ CreateInvoice.req_amount req = CreateInvoice.amount d
    /\ CreateInvoice.checkout_paymentMethods req
       = match CreateInvoice.preferredCrypto d with
         | Some CreateInvoice.bitcoin => ["BTC"]
         | Some CreateInvoice.monero => ["XMR"]
         | None => ["BTC"; "XMR"]
         end.
Proof.
  intros Hr. exists (CreateInvoice.invoiceRequest d).
  unfold CreateInvoice.POST. rewrite Hr. simpl.
  split.
  - destruct (gateway _); reflexivity.
  - split; [reflexivity|]. split; [reflexivity|].
    unfold CreateInvoice.paymentMethods.
    destruct (CreateInvoice.preferredCrypto d) as [[]|]; reflexivity.
Qed.

(** The three preferences. *)
Lemma invoice_payment_method_filter_witness :
  (exists req,
      snd (CreateInvoice.POST Scenario.allowed Scenario.gatewayUp
             (Http.Validated (Scenario.invoiceData (Some CreateInvoice.monero)))) = [req]
      /\ CreateInvoice.checkout_paymentMethods req = ["XMR"])
  /\ (exists req,
      snd (CreateInvoice.POST Scenario.allowed Scenario.gatewayUp
             (Http.Validated (Scenario.invoiceData None))) = [req]
      /\ CreateInvoice.checkout_paymentMethods req = ["BTC"; "XMR"]).
Proof.
  split.
  - destruct (invoice_payment_method_filter Scenario.allowed Scenario.gatewayUp
                (Scenario.invoiceData (Some CreateInvoice.monero)) eq_refl)
      as (req & H1 & _ & _ & H2).
    exists req. split; [exact H1 | exact H2].
  - destruct (invoice_payment_method_filter Scenario.allowed Scenario.gatewayUp
                (Scenario.invoiceData None) eq_refl)
      as (req & H1 & _ & _ & H2).
    exists req. split; [exact H1 | exact H2].
Defined.

(* ===================================================================== *)
(** * The payment screen *)
(* ===================================================================== *)







(** What handling the answer to the i-th request in flight leaves. *)
Lemma resolvePoll_result i p s captured :
  PaymentScreen.inFlight s !! i = Some captured ->
  PaymentScreen.resolvePoll i p s
  = let fire := PaymentScreen.pollIsTerminal p && negb captured in
    {| PaymentScreen.status :=
         match p with
         | PaymentScreen.Status st => st
         | PaymentScreen.FetchFailed => PaymentScreen.status s
         end;
       PaymentScreen.completionTriggered := PaymentScreen.completionTriggered s || fire;
       PaymentScreen.closureFlag := PaymentScreen.closureFlag s;
       PaymentScreen.inFlight :=
         (take i (PaymentScreen.inFlight s) ++ drop (S i) (PaymentScreen.inFlight s))%list;
       PaymentScreen.paymentProcessedRef := PaymentScreen.paymentProcessedRef s || fire;
       PaymentScreen.observed := S (PaymentScreen.observed s);
       PaymentScreen.onCompleteCalls :=
         if fire then (PaymentScreen.onCompleteCalls s ++ [PaymentScreen.observed s])%list
         else PaymentScreen.onCompleteCalls s;
       PaymentScreen.settlements :=
         if fire && negb (PaymentScreen.paymentProcessedRef s)
         then (PaymentScreen.settlements s ++ [PaymentScreen.observed s])%list
         else PaymentScreen.settlements s |}.
Proof.
  intros Hi. unfold PaymentScreen.resolvePoll. rewrite Hi.
  destruct s as [st ct cf inf ref obs calls setts].
  cbn [PaymentScreen.inFlight PaymentScreen.status
       PaymentScreen.completionTriggered PaymentScreen.closureFlag
       PaymentScreen.paymentProcessedRef PaymentScreen.observed
       PaymentScreen.onCompleteCalls PaymentScreen.settlements].
  unfold PaymentScreen.handleAnswer, PaymentScreen.pollIsTerminal.
  cbn [PaymentScreen.inFlight PaymentScreen.status
       PaymentScreen.completionTriggered PaymentScreen.closureFlag
       PaymentScreen.paymentProcessedRef PaymentScreen.observed
       PaymentScreen.onCompleteCalls PaymentScreen.settlements].
  destruct p as [|st'].
  - destruct ct, ref; reflexivity.
  - destruct (PaymentScreen.isTerminal st'), captured, ref, ct; reflexivity.
Qed.

(** Once the page's guard is set, no event runs the settlement again. *)
Lemma settled_stays_settled events s :
  PaymentScreen.paymentProcessedRef s = true ->
  PaymentScreen.settlements (PaymentScreen.run events s) = PaymentScreen.settlements s.
Proof.
  revert s. induction events as [|e events IH]; intros s Href; [reflexivity|].
  cbn [PaymentScreen.run fold_left].
  change (fold_left PaymentScreen.step events ?x) with (PaymentScreen.run events x).
  assert (H : PaymentScreen.paymentProcessedRef (PaymentScreen.step s e) = true
              /\ PaymentScreen.settlements (PaymentScreen.step s e)
                 = PaymentScreen.settlements s).
  { destruct e as [|i p|]; cbn [PaymentScreen.step].
    - split; [exact Href | reflexivity].
    - destruct (PaymentScreen.inFlight s !! i) as [captured|] eqn:Hi.
      + rewrite (resolvePoll_result _ _ _ _ Hi). cbv zeta.
        cbn [PaymentScreen.paymentProcessedRef PaymentScreen.settlements].
        rewrite Href. cbn [negb orb]. rewrite andb_false_r. auto.
      + unfold PaymentScreen.resolvePoll. rewrite Hi. auto.
    - split; [exact Href | reflexivity]. }
  destruct H as (H1 & H2). rewrite (IH _ H1). exact H2.
Qed.

(** No event takes back a call of the completion callback. *)
Lemma run_calls_grow events s :
  exists more,
    PaymentScreen.onCompleteCalls (PaymentScreen.run events s)
    = (PaymentScreen.onCompleteCalls s ++ more)%list.
Proof.
  revert s. induction events as [|e events IH]; intros s.
  - exists []. simpl. now rewrite app_nil_r.
  - cbn [PaymentScreen.run fold_left].
    change (fold_left PaymentScreen.step events ?x) with (PaymentScreen.run events x).
    destruct (IH (PaymentScreen.step s e)) as (more & ->).
    assert (H : exists first,
               PaymentScreen.onCompleteCalls (PaymentScreen.step s e)
               = (PaymentScreen.onCompleteCalls s ++ first)%list).
    { destruct e as [|i p|]; cbn [PaymentScreen.step].
      - exists []. simpl. now rewrite app_nil_r.
      - destruct (PaymentScreen.inFlight s !! i) as [captured|] eqn:Hi.
        + rewrite (resolvePoll_result _ _ _ _ Hi). cbv zeta.
          cbn [PaymentScreen.onCompleteCalls].
          destruct (_ && _); [eexists; reflexivity|].
          exists []. now rewrite app_nil_r.
        + unfold PaymentScreen.resolvePoll. rewrite Hi.
          exists []. now rewrite app_nil_r.
      - exists []. simpl. now rewrite app_nil_r. }
    destruct H as (first & ->). exists (first ++ more)%list. now rewrite app_assoc.
Qed.

(** From a screen on which nothing has completed yet, under any schedule:
    the settlement runs exactly at the first terminal-equivalent answer,
    which is also the first call of the completion callback. *)
Lemma schedule_from_idle events s :
  PaymentScreen.paymentProcessedRef s = false ->
  PaymentScreen.completionTriggered s = false ->
  PaymentScreen.closureFlag s = false ->
  Forall (fun c => c = false) (PaymentScreen.inFlight s) ->
  PaymentScreen.settlements s = [] ->
  PaymentScreen.onCompleteCalls s = [] ->
  match PaymentScreen.firstTerminal (PaymentScreen.observed s)
          (PaymentScreen.answers events s) with
  | Some n =>
      PaymentScreen.settlements (PaymentScreen.run events s) = [n]
      /\ exists more,
           PaymentScreen.onCompleteCalls (PaymentScreen.run events s) = n :: more
  | None =>
      PaymentScreen.settlements (PaymentScreen.run events s) = []
      /\ PaymentScreen.onCompleteCalls (PaymentScreen.run events s) = []
  end.
Proof.
  revert s. induction events as [|e events IH]; intros s Href Hct Hcf Hin Hsetts Hcalls.
  - simpl. auto.
  - cbn [PaymentScreen.run fold_left].
    change (fold_left PaymentScreen.step events ?x) with (PaymentScreen.run events x).
    destruct e as [|i p|]; cbn [PaymentScreen.answers].
    + refine (IH (PaymentScreen.step s PaymentScreen.Tick) Href Hct Hcf _ Hsetts Hcalls).
      cbn [PaymentScreen.step PaymentScreen.startPoll PaymentScreen.inFlight].
      apply Forall_app. split; [exact Hin|].
      constructor; [exact Hcf | constructor].
    + destruct (PaymentScreen.inFlight s !! i) as [captured|] eqn:Hi.
      * assert (captured = false) as ->.
        { rewrite Forall_forall in Hin. apply Hin.
          now apply list_elem_of_lookup_2 in Hi. }
        cbn [PaymentScreen.step PaymentScreen.firstTerminal].
        pose proof (resolvePoll_result i p s false Hi) as E. cbv zeta in E.
        rewrite Href, Hct, Hsetts, Hcalls in E. cbn [negb orb] in E.
        rewrite !andb_true_r in E. cbn [app] in E.
        destruct (PaymentScreen.pollIsTerminal p).
        -- rewrite E. rewrite settled_stays_settled by reflexivity.
           split; [reflexivity|].
           match goal with
           | |- context [PaymentScreen.run events ?x] =>
               destruct (run_calls_grow events x) as (more & ->)
           end.
           exists more. reflexivity.
        -- rewrite E.
           match goal with
           | |- context [PaymentScreen.run events ?x] => pose proof (IH x) as IHx
           end.
           cbn [PaymentScreen.paymentProcessedRef PaymentScreen.completionTriggered
                PaymentScreen.closureFlag PaymentScreen.inFlight
                PaymentScreen.settlements PaymentScreen.onCompleteCalls
                PaymentScreen.observed] in IHx.
           apply IHx; trivial.
           apply Forall_app. split.
           ++ now apply Forall_take.
           ++ now apply Forall_drop.
      * cbn [PaymentScreen.step]. unfold PaymentScreen.resolvePoll. rewrite Hi.
        now apply IH.
    + exact (IH (PaymentScreen.step s PaymentScreen.Render) Href Hct Hct Hin Hsetts
               Hcalls).
Qed.




(* ===================================================================== *)
(** * The scheduled shipping-notification sweep *)
(* ===================================================================== *)

(** The filter of the query, condition by condition. *)
Lemma due_spec now o :
  Sweep.due now o = true
  <-> (exists t, Order.shipping_notification_scheduled_at o = Some t /\ t <= now)
      /\ Order.shipping_notification_sent_at o = None
      /\ is_Some (Order.shipping_email o)
      /\ is_Some (Order.tracking_number o)
      /\ is_Some (Order.shipping_tracking_url o).
Proof.
  unfold Sweep.due.
  destruct (Order.shipping_notification_scheduled_at o) as [t|].
  - destruct (Order.shipping_notification_sent_at o).
    + split; [discriminate|]. intros (_ & H & _). discriminate.
    + rewrite !andb_true_iff, Z.leb_le.
      destruct (Order.shipping_email o), (Order.tracking_number o),
        (Order.shipping_tracking_url o);
        split;
        try (intros (((Ht & He) & Hn) & Hu); try discriminate;
             repeat split; eauto);
        intros ((t' & [= <-] & Ht) & _ & He & Hn & Hu);
        repeat split; trivial;
        try (destruct He as [? He]; discriminate He);
        try (destruct Hn as [? Hn]; discriminate Hn);
        try (destruct Hu as [? Hu]; discriminate Hu).
  - split; [discriminate|]. intros ((t & H & _) & _). discriminate.
Qed.

Lemma selectDue_spec now d k o :
  In (k, o) (Sweep.selectDue now d)
  <-> Store.orders d !! k = Some o /\ Sweep.due now o = true.
Proof.
  unfold Sweep.selectDue. rewrite filter_In. simpl.
  rewrite <- list_elem_of_In, elem_of_map_to_list. reflexivity.
Qed.

Lemma selectDue_NoDup now d : NoDup (Sweep.selectDue now d).*1.
Proof.
  unfold Sweep.selectDue.
  assert (H : forall (l : list (string * Order.t)) f,
             NoDup l.*1 -> NoDup (List.filter f l).*1).
  { induction l as [|[k o] l IH]; intros f; simpl; [auto|].
    rewrite !NoDup_cons. intros (Hk & Hl).
    destruct (f (k, o)); simpl; [rewrite NoDup_cons; split|]; auto.
    intros Hin. apply Hk. apply list_elem_of_fmap in Hin.
    destruct Hin as ([k' o'] & -> & Hin). apply list_elem_of_In, filter_In in Hin.
    apply list_elem_of_fmap. exists (k', o'). split; [reflexivity|].
    apply list_elem_of_In. tauto. }
  apply H, NoDup_fst_map_to_list.
Qed.

(** An order no sweep selects again once it is stamped. *)
Lemma mark_notified_not_due now t o : Sweep.due now (Order.mark_notified t o) = false.
Proof. unfold Sweep.due. simpl. now destruct (Order.shipping_notification_scheduled_at o). Qed.

Lemma due_mono now now' o : now <= now' -> Sweep.due now o = true -> Sweep.due now' o = true.
Proof.
  rewrite !due_spec. intros Hle ((t & Ht & Hlt) & H). split; [|exact H].
  exists t. split; [exact Ht | lia].
Qed.

(** One turn of the loop. *)
Lemma processOrders_cons env faults id o l w :
  Sweep.processOrders env faults ((id, o) :: l) w
  = Sweep.processOrders env faults l
      (if Sweep.sendFails faults id then w
       else {| Sweep.db :=
                 if Sweep.stampFails faults id then Sweep.db w
                 else Store.with_orders
                        (alter (Order.mark_notified (Sweep.stampedAt env id)) id
                           (Store.orders (Sweep.db w))) (Sweep.db w);
               Sweep.outbox := (Sweep.outbox w ++ [Sweep.shippingEmail o])%list |}).
Proof.
  simpl. unfold Sweep.sendShippingEmail, Store.update_order.
  destruct (Sweep.sendFails faults id); [reflexivity|].
  destruct (Sweep.stampFails faults id); reflexivity.
Qed.

(** The orders table after the loop, row by row. *)
Lemma processOrders_lookup env faults l w k :
  NoDup l.*1 ->
  Store.orders (Sweep.db (Sweep.processOrders env faults l w)) !! k
  = if decide (k ∈ l.*1) then
      if Spec.stamps faults k
      then Order.mark_notified (Sweep.stampedAt env k) <$> Store.orders (Sweep.db w) !! k
      else Store.orders (Sweep.db w) !! k
    else Store.orders (Sweep.db w) !! k.
Proof.
  revert w. induction l as [|[id o] l IH]; intros w Hnd.
  - simpl. destruct (decide (k ∈ [])) as [H|_]; [|reflexivity]. now apply elem_of_nil in H.
  - rewrite fmap_cons in Hnd |- *. cbn [fst] in *.
    apply NoDup_cons in Hnd. destruct Hnd as (Hid & Hnd).
    rewrite processOrders_cons, (IH _ Hnd). clear IH. unfold Spec.stamps.
    destruct (decide (k = id)) as [->|Hne].
    + destruct (decide (id ∈ l.*1)) as [H|_]; [contradiction|].
      destruct (decide (id ∈ id :: l.*1)) as [_|H]; [|destruct H; left].
      destruct (Sweep.sendFails faults id); simpl; [reflexivity|].
      destruct (Sweep.stampFails faults id); simpl; [reflexivity|].
      now rewrite lookup_alter_eq.
    + assert (Hk : Store.orders
                     (Sweep.db
                        (if Sweep.sendFails faults id then w
                         else {| Sweep.db :=
                                   if Sweep.stampFails faults id then Sweep.db w
                                   else Store.with_orders
                                          (alter (Order.mark_notified (Sweep.stampedAt env id)) id
                                             (Store.orders (Sweep.db w))) (Sweep.db w);
                                 Sweep.outbox := (Sweep.outbox w ++ [Sweep.shippingEmail o])%list |}))
                   !! k = Store.orders (Sweep.db w) !! k).
      { destruct (Sweep.sendFails faults id); simpl; [reflexivity|].
        destruct (Sweep.stampFails faults id); simpl; [reflexivity|].
        now rewrite lookup_alter_ne by congruence. }
      rewrite Hk.
      destruct (decide (k ∈ l.*1)) as [H|H];
        destruct (decide (k ∈ id :: l.*1)) as [H'|H']; trivial.
      * destruct H'. now right.
      * apply elem_of_cons in H'. destruct H' as [->|H']; contradiction.
Qed.

(** The messages the loop hands to the mailer, in order. *)
Lemma processOrders_outbox env faults l w :
  Sweep.outbox (Sweep.processOrders env faults l w)
  = (Sweep.outbox w
     ++ List.map (fun row => Sweep.shippingEmail (snd row))
          (List.filter (fun row => negb (Sweep.sendFails faults (fst row))) l))%list.
Proof.
  revert w. induction l as [|[id o] l IH]; intros w.
  - simpl. now rewrite app_nil_r.
  - rewrite processOrders_cons, IH. cbn [List.filter fst].
    destruct (Sweep.sendFails faults id); simpl; [reflexivity|].
    now rewrite <- app_assoc.
Qed.

Lemma processPendingNotifications_loop env faults w :
  Sweep.queryFails faults = false ->
  Sweep.processPendingNotifications env faults w
  = Sweep.processOrders env faults (Sweep.selectDue (Sweep.now env) (Sweep.db w)) w.
Proof.
  intros Hq. unfold Sweep.processPendingNotifications. rewrite Hq.
  now destruct (Sweep.selectDue _ _).
Qed.

(** C9, as stated, fails on the code: an order whose scheduled time is
    past, that is not stamped and whose tracking fields are populated, but
    that has no shipping email, is not selected (and the sweep does nothing). *)
Lemma sweep_skips_order_without_email :
  let o := Scenario.shippedOrder None in
  Store.orders (Sweep.db (Scenario.shipped None)) !! "order-1" = Some o
  /\ Order.shipping_notification_scheduled_at o = Some 3600000
  /\ 3600000 <= Sweep.now Scenario.sweepEnv
  /\ Order.shipping_notification_sent_at o = None
  /\ Order.tracking_number o = Some "1Z999"
  /\ Order.shipping_tracking_url o = Some "https://track.example.org/1Z999"
  /\ Sweep.selectDue (Sweep.now Scenario.sweepEnv) (Sweep.db (Scenario.shipped None)) = []
  /\ Sweep.processPendingNotifications Scenario.sweepEnv Scenario.sweepOk
       (Scenario.shipped None) = Scenario.shipped None.
Proof. vm_compute. repeat split; discriminate. Qed.

(** C9 (amended): the sweep selects exactly the stored orders whose
    scheduled time is set and not after the time of the query, whose sent
    time is absent, and whose shipping email, tracking number and tracking
    URL are all present. For a selected order, a successful send hands the
    shipping email to the mailer and, when the update goes through, stamps
    the sent time, after which no sweep selects the order; a failed send
    leaves the order as it was, selected again by every later sweep. *)
Theorem sweep_selects_and_stamps env faults w k o :
  (In (k, o) (Sweep.selectDue (Sweep.now env) (Sweep.db w))
   <-> Store.orders (Sweep.db w) !! k = Some o
       /\ (exists t, Order.shipping_notification_scheduled_at o = Some t
                     /\ t <= Sweep.now env)
       /\ Order.shipping_notification_sent_at o = None
       /\ is_Some (Order.shipping_email o)
       /\ is_Some (Order.tracking_number o)
       /\ is_Some (Order.shipping_tracking_url o))
  /\ (Sweep.queryFails faults = false ->
      In (k, o) (Sweep.selectDue (Sweep.now env) (Sweep.db w)) ->
      let w' := Sweep.processPendingNotifications env faults w in
      (Sweep.sendFails faults k = false ->
       In (Sweep.shippingEmail o) (Sweep.outbox w')
       /\ (Sweep.stampFails faults k = false ->
           Store.orders (Sweep.db w') !! k
           = Some (Order.mark_notified (Sweep.stampedAt env k) o)
           /\ forall now' o', ~ In (k, o') (Sweep.selectDue now' (Sweep.db w'))))
      /\ (Sweep.sendFails faults k = true ->
          Store.orders (Sweep.db w') !! k = Some o
          /\ forall now', Sweep.now env <= now' ->
                          In (k, o) (Sweep.selectDue now' (Sweep.db w')))).
Proof.
  split.
  - rewrite selectDue_spec, due_spec. tauto.
  - intros Hq Hin w'. unfold w'. rewrite (processPendingNotifications_loop _ _ _ Hq).
    pose proof (selectDue_NoDup (Sweep.now env) (Sweep.db w)) as Hnd.
    assert (Hk : k ∈ (Sweep.selectDue (Sweep.now env) (Sweep.db w)).*1).
    { apply list_elem_of_fmap. exists (k, o). split; [reflexivity|].
      now apply list_elem_of_In. }
    pose proof Hin as Hsel. apply selectDue_spec in Hsel. destruct Hsel as (Ho & Hdue).
    split.
    + intros Hsend. split.
      * rewrite processOrders_outbox. apply in_or_app. right.
        apply (in_map (fun row => Sweep.shippingEmail (snd row)) _ (k, o)).
        apply filter_In. split; [exact Hin|]. simpl. now rewrite Hsend.
      * intros Hstamp.
        assert (Hrow : Store.orders
                         (Sweep.db (Sweep.processOrders env faults
                            (Sweep.selectDue (Sweep.now env) (Sweep.db w)) w)) !! k
                       = Some (Order.mark_notified (Sweep.stampedAt env k) o)).
        { rewrite (processOrders_lookup _ _ _ _ _ Hnd).
          destruct (decide _) as [_|H]; [|contradiction].
          unfold Spec.stamps. now rewrite Hsend, Hstamp, Ho. }
        split; [exact Hrow|].
        intros now' o' H. apply selectDue_spec in H. destruct H as (Ho' & Hd).
        rewrite Hrow in Ho'. injection Ho' as <-.
        now rewrite mark_notified_not_due in Hd.
    + intros Hsend.
      assert (Hrow : Store.orders
                       (Sweep.db (Sweep.processOrders env faults
                          (Sweep.selectDue (Sweep.now env) (Sweep.db w)) w)) !! k
                     = Some o).
      { rewrite (processOrders_lookup _ _ _ _ _ Hnd).
        destruct (decide _) as [_|H]; [|contradiction].
        unfold Spec.stamps. now rewrite Hsend, Ho. }
      split; [exact Hrow|].
      intros now' Hle. apply selectDue_spec. split; [exact Hrow|].
      now apply (due_mono (Sweep.now env)).
Qed.

(** Scenario D: an order scheduled an hour before the sweep, not stamped,
    with email and tracking fields: the sweep mails it and stamps it, and a
    sweep run right after selects nothing; with the mailer down the order
    stays selected. *)
Lemma sweep_selects_and_stamps_witness :
  let o := Scenario.shippedOrder (Some "ada@example.org") in
  let w := Scenario.shipped (Some "ada@example.org") in
  let w' := Sweep.processPendingNotifications Scenario.sweepEnv Scenario.sweepOk w in
  let w'' := Sweep.processPendingNotifications Scenario.sweepEnv Scenario.mailerDown w in
  Sweep.selectDue 7200000 (Sweep.db w) = [("order-1", o)]
  /\ In (Sweep.shippingEmail o) (Sweep.outbox w')
  /\ Store.orders (Sweep.db w') !! "order-1" = Some (Order.mark_notified 7200005 o)
  /\ Sweep.selectDue 7200000 (Sweep.db w') = []
  /\ In ("order-1", o) (Sweep.selectDue 7200001 (Sweep.db w'')).
Proof.
  intros o w w' w''.
  assert (Hsel : In ("order-1", o) (Sweep.selectDue (Sweep.now Scenario.sweepEnv) (Sweep.db w)))
    by (vm_compute; auto).
  destruct (sweep_selects_and_stamps Scenario.sweepEnv Scenario.sweepOk w "order-1" o)
    as (_ & Hok).
  destruct (Hok eq_refl Hsel) as (Hsent & _).
  destruct (Hsent eq_refl) as (Hmail & Hstamp).
  destruct (Hstamp eq_refl) as (Hrow & _).
  destruct (sweep_selects_and_stamps Scenario.sweepEnv Scenario.mailerDown w "order-1" o)
    as (_ & Hdown).
  destruct (Hdown eq_refl Hsel) as (_ & Hfail).
  destruct (Hfail eq_refl) as (_ & Hagain).
  split; [vm_compute; reflexivity|].
  split; [exact Hmail|]. split; [exact Hrow|].
  split; [vm_compute; reflexivity|].
  apply Hagain. vm_compute. discriminate.
Defined.

(* ===================================================================== *)
(** * Sample carts *)
(* ===================================================================== *)

Module Sample.

Definition tee : Cart.Product :=
  {| Cart.product_id := "tee"; Cart.product_name := "Tee";
     Cart.product_price := 20%float; Cart.product_discount := Some 25%float |}.

Definition red : Modifier.t :=
  {| Modifier.groupId := "colour"; Modifier.groupLabel := "Colour";
     Modifier.optionId := "red"; Modifier.optionLabel := "Red";
     Modifier.priceAdjustment := 0%float |}.

Definition large : Modifier.t :=
  {| Modifier.groupId := "size"; Modifier.groupLabel := "Size";
     Modifier.optionId := "l"; Modifier.optionLabel := "Large";
     Modifier.priceAdjustment := 5%float |}.

(** One red, large tee, put in the cart at time 1700000000001. *)
Definition oneTee : list Cart.CartItem :=
  Cart.addToCart "1700000000001" tee (Some [red; large]) [].

(** [toUpperCase] on strings of ASCII letters, digits and signs. *)
Fixpoint asciiUpper (s : string) : string :=
  match s with
  | EmptyString => EmptyString
  | String c rest =>
      let n := Ascii.nat_of_ascii c in
      String (if (97 <=? n)%nat && (n <=? 122)%nat
              then Ascii.ascii_of_nat (n - 32) else c)
             (asciiUpper rest)
  end.

(** A coupon for one use per customer, and the record of its use by one
    customer. *)
Definition welcome : Coupon.Coupon :=
  {| Coupon.id := "c-3"; Coupon.code := "WELCOME";
     Coupon.discount_type := Coupon.fixed;
     Coupon.discount_value := 15%float;
     Coupon.minimum_order_amount := None;
     Coupon.max_uses := None; Coupon.current_uses := 1;
     Coupon.one_per_customer := true;
     Coupon.valid_from := Js.Time 1000;
     Coupon.valid_until := None;
     Coupon.active := true;
     Coupon.applicable_to := Coupon.all;
     Coupon.product_ids := None |}.

Definition couponTables : CouponRoute.Tables :=
  {| CouponRoute.coupons := [Scenario.save10; welcome];
     CouponRoute.coupon_usage :=
       [{| CouponRoute.coupon_id := "c-3";
           CouponRoute.customer_email := "ada@example.org" |}] |}.

Definition couponBody (code : string) (email : option string) : CouponRoute.Body :=
  {| CouponRoute.code := Some code; CouponRoute.orderTotal := Some 100%float;
     CouponRoute.customerEmail := email; CouponRoute.cartProductIds := Some ["tee"] |}.

Definition couponOk : CouponRoute.Faults :=
  {| CouponRoute.couponFetchFails := false; CouponRoute.usageFetchFails := false |}.

End Sample.

(* ===================================================================== *)
(** * The rate limiter *)
(* ===================================================================== *)

(** A check inside the window of a live entry. *)
Lemma check_live now key config store e :
  store !! key = Some e ->
  now <= RateLimiter.resetTime e ->
  RateLimiter.check now key config store
  = if RateLimiter.count e <? RateLimiter.maxRequests config
    then ({| RateLimiter.isAllowed := true;
             RateLimiter.remaining :=
               RateLimiter.maxRequests config - (RateLimiter.count e + 1);
             RateLimiter.resetAt := RateLimiter.resetTime e |},
          <[key := {| RateLimiter.count := RateLimiter.count e + 1;
                      RateLimiter.resetTime := RateLimiter.resetTime e |}]> store)
    else ({| RateLimiter.isAllowed := false; RateLimiter.remaining := 0;
             RateLimiter.resetAt := RateLimiter.resetTime e |}, store).
Proof.
  intros He Hnow. unfold RateLimiter.check. rewrite He.
  destruct (Z.ltb_spec (RateLimiter.resetTime e) now) as [H|_]; [lia|reflexivity].
Qed.

(** A check with no entry, or after the window of the entry. *)
Lemma check_fresh now key config store :
  (forall e, store !! key = Some e -> RateLimiter.resetTime e < now) ->
  RateLimiter.check now key config store
  = ({| RateLimiter.isAllowed := true;
        RateLimiter.remaining := RateLimiter.maxRequests config - 1;
        RateLimiter.resetAt := now + RateLimiter.windowMs config |},
     <[key := {| RateLimiter.count := 1;
                 RateLimiter.resetTime := now + RateLimiter.windowMs config |}]> store).
Proof.
  intros H. unfold RateLimiter.check.
  destruct (store !! key) as [e|]; [|reflexivity].
  specialize (H e eq_refl). apply Z.ltb_lt in H. now rewrite H.
Qed.

Lemma checks_live times key config store e :
  store !! key = Some e ->
  Forall (fun t => t <= RateLimiter.resetTime e) times ->
  List.map RateLimiter.isAllowed (fst (RateLimiter.checks times key config store))
  = imap (fun j _ => RateLimiter.count e + Z.of_nat j <? RateLimiter.maxRequests config)
         times
  /\ Forall (fun r => RateLimiter.resetAt r = RateLimiter.resetTime e)
       (fst (RateLimiter.checks times key config store)).
Proof.
  revert store e. induction times as [|t times IH]; intros store e He Ht.
  - simpl. auto.
  - apply Forall_cons in Ht. destruct Ht as (Ht & Hts).
    cbn [RateLimiter.checks]. rewrite (check_live _ _ _ _ _ He Ht).
    rewrite imap_cons. rewrite Z.add_0_r.
    destruct (Z.ltb_spec (RateLimiter.count e) (RateLimiter.maxRequests config)) as [Hc|Hc].
    + match goal with
      | |- context [RateLimiter.checks times key config ?s] =>
          destruct (IH s {| RateLimiter.count := RateLimiter.count e + 1;
                            RateLimiter.resetTime := RateLimiter.resetTime e |})
            as (IH1 & IH2); [apply lookup_insert_eq | exact Hts |];
          destruct (RateLimiter.checks times key config s) as [rs s']
      end.
      simpl in *. split.
      * f_equal. rewrite IH1. apply imap_ext. intros j x _. simpl. f_equal. lia.
      * constructor; [reflexivity | exact IH2].
    + destruct (IH store e He Hts) as (IH1 & IH2).
      destruct (RateLimiter.checks times key config store) as [rs s'].
      simpl in *. split.
      * f_equal. rewrite IH1. apply imap_ext. intros j x _. simpl.
        destruct (Z.ltb_spec (RateLimiter.count e + Z.of_nat j)
                    (RateLimiter.maxRequests config));
          destruct (Z.ltb_spec (RateLimiter.count e + Z.of_nat (S j))
                      (RateLimiter.maxRequests config)); trivial; lia.
      * constructor; [reflexivity | exact IH2].
Qed.

(** X1: from a store where the key has no entry or an expired one, of the
    checks made at [t0] and then at times within the window opened at [t0],
    the first is allowed and the j-th later one is allowed exactly when
    j + 1 < maxRequests; all of them report the same reset time. *)
Theorem rate_limit_window t0 times key config store :
  (forall e, store !! key = Some e -> RateLimiter.resetTime e < t0) ->
  Forall (fun t => t <= t0 + RateLimiter.windowMs config) times ->
  List.map RateLimiter.isAllowed
    (fst (RateLimiter.checks (t0 :: times) key config store))
  = true :: imap (fun j _ => Z.of_nat j + 1 <? RateLimiter.maxRequests config) times
  /\ Forall (fun r => RateLimiter.resetAt r = t0 + RateLimiter.windowMs config)
       (fst (RateLimiter.checks (t0 :: times) key config store)).
Proof.
  intros Hfresh Htimes. cbn [RateLimiter.checks].
  rewrite (check_fresh _ _ _ _ Hfresh).
  match goal with
  | |- context [RateLimiter.checks times key config ?s] =>
      destruct (checks_live times key config s
                  {| RateLimiter.count := 1;
                     RateLimiter.resetTime := t0 + RateLimiter.windowMs config |})
        as (H1 & H2); [apply lookup_insert_eq | exact Htimes |];
      destruct (RateLimiter.checks times key config s) as [rs s']
  end.
  simpl in *. split.
  - f_equal. rewrite H1. apply imap_ext. intros j x _. simpl. f_equal. lia.
  - constructor; [reflexivity | exact H2].
Qed.

(** Eight order-creation requests of one client within a minute: six are
    allowed, the last two refused. *)
Lemma rate_limit_window_witness :
  List.map RateLimiter.isAllowed
    (fst (RateLimiter.checks [1000; 2000; 3000; 4000; 5000; 6000; 7000; 61000]
            "10.0.0.7:curl" RateLimiter.ORDER_CREATE ∅))
  = [true; true; true; true; true; true; false; false].
Proof.
  destruct (rate_limit_window 1000 [2000; 3000; 4000; 5000; 6000; 7000; 61000]
              "10.0.0.7:curl" RateLimiter.ORDER_CREATE ∅) as (H & _).
  - intros e He. vm_compute in He. discriminate He.
  - repeat constructor; simpl; lia.
  - exact H.
Defined.

(** X2: [cleanup] changes no answer: a check made at or after the time of
    a cleanup gives the same result, and leaves the same entry for its
    key, as if the cleanup had not run. *)
Theorem cleanup_transparent now now' key config store :
  now <= now' ->
  fst (RateLimiter.check now' key config (RateLimiter.cleanup now store))
  = fst (RateLimiter.check now' key config store)
  /\ snd (RateLimiter.check now' key config (RateLimiter.cleanup now store)) !! key
     = snd (RateLimiter.check now' key config store) !! key
  /\ forall k e,
       RateLimiter.cleanup now store !! k = Some e
       <-> store !! k = Some e /\ now <= RateLimiter.resetTime e.
Proof.
  intros Hle.
  assert (Hc : forall k e,
             RateLimiter.cleanup now store !! k = Some e
             <-> store !! k = Some e /\ now <= RateLimiter.resetTime e).
  { intros k e. unfold RateLimiter.cleanup.
    rewrite (map_lookup_filter_Some
               (fun kv : string * RateLimiter.RateLimitEntry =>
                  ~ (RateLimiter.resetTime (snd kv) < now)) store k e). simpl.
    split; intros (H1 & H2); split; trivial; lia. }
  assert (Hcases : (exists e, store !! key = Some e /\ now' <= RateLimiter.resetTime e)
                   \/ (forall e, store !! key = Some e -> RateLimiter.resetTime e < now')).
  { destruct (store !! key) as [e|]; [|right; discriminate].
    destruct (Z.le_gt_cases now' (RateLimiter.resetTime e)) as [H|H].
    - left. eauto.
    - right. intros e' [= <-]. lia. }
  destruct Hcases as [(e & He & Hlive)|Hdead].
  - assert (He' : RateLimiter.cleanup now store !! key = Some e)
      by (apply Hc; split; [exact He | lia]).
    rewrite (check_live _ _ config _ _ He Hlive), (check_live _ _ config _ _ He' Hlive).
    destruct (_ <? _); simpl.
    + split; [reflexivity|]. split; [|exact Hc].
      etransitivity; [apply lookup_insert_eq | symmetry; apply lookup_insert_eq].
    + split; [reflexivity|]. split; [|exact Hc]. now rewrite He, He'.
  - rewrite (check_fresh _ _ config _ Hdead).
    rewrite (check_fresh now' key config (RateLimiter.cleanup now store)).
    + simpl. split; [reflexivity|]. split; [|exact Hc].
      etransitivity; [apply lookup_insert_eq | symmetry; apply lookup_insert_eq].
    + intros e He. apply Hc in He. destruct He as (He & _). now apply Hdead.
Qed.

(** A store with two requests of one client in its window, swept at 3000
    and asked again at 4000. *)
Lemma cleanup_transparent_witness :
  let store := snd (RateLimiter.checks [1000; 2000] "10.0.0.7:curl"
                      RateLimiter.ORDER_CREATE ∅) in
  fst (RateLimiter.check 4000 "10.0.0.7:curl" RateLimiter.ORDER_CREATE
         (RateLimiter.cleanup 3000 store))
  = fst (RateLimiter.check 4000 "10.0.0.7:curl" RateLimiter.ORDER_CREATE store).
Proof.
  intros store.
  refine (proj1 (cleanup_transparent 3000 4000 "10.0.0.7:curl"
                   RateLimiter.ORDER_CREATE store _)).
  lia.
Defined.

(** [check] reads and writes the entry of its key only. *)
Lemma check_shape now key config :
  exists f : option RateLimiter.RateLimitEntry
             -> RateLimiter.CheckResult * option RateLimiter.RateLimitEntry,
  forall store : RateLimiter.Store,
    RateLimiter.check now key config store
    = (fst (f (store !! key)),
       match snd (f (store !! key)) with
       | Some e => <[key := e]> store
       | None => store
       end).
Proof.
  exists (fun entry =>
            let fresh :=
              ({| RateLimiter.isAllowed := true;
                  RateLimiter.remaining := RateLimiter.maxRequests config - 1;
                  RateLimiter.resetAt := now + RateLimiter.windowMs config |},
               Some {| RateLimiter.count := 1;
                       RateLimiter.resetTime := now + RateLimiter.windowMs config |}) in
            match entry with
            | None => fresh
            | Some e =>
                if RateLimiter.resetTime e <? now then fresh
                else if RateLimiter.count e <? RateLimiter.maxRequests config
                then ({| RateLimiter.isAllowed := true;
                         RateLimiter.remaining :=
                           RateLimiter.maxRequests config - (RateLimiter.count e + 1);
                         RateLimiter.resetAt := RateLimiter.resetTime e |},
                      Some {| RateLimiter.count := RateLimiter.count e + 1;
                              RateLimiter.resetTime := RateLimiter.resetTime e |})
                else ({| RateLimiter.isAllowed := false; RateLimiter.remaining := 0;
                         RateLimiter.resetAt := RateLimiter.resetTime e |}, None)
            end).
  intros store. unfold RateLimiter.check.
  destruct (store !! key) as [e|]; [|reflexivity].
  destruct (_ <? now); [reflexivity|].
  destruct (_ <? _); reflexivity.
Qed.

(** X3: the requests of two different clients do not interfere: checking
    one key and then another gives each the answer, and leaves the store,
    that checking them in the other order does. *)
Theorem checks_of_distinct_keys_commute now1 now2 k1 k2 c1 c2
    (store : RateLimiter.Store) :
  k1 <> k2 ->
  let first := RateLimiter.check now1 k1 c1 store in
  let second := RateLimiter.check now2 k2 c2 (snd first) in
  let first' := RateLimiter.check now2 k2 c2 store in
  let second' := RateLimiter.check now1 k1 c1 (snd first') in
  fst first = fst second' /\ fst second = fst first' /\ snd second = snd second'.
Proof.
  intros Hne.
  destruct (check_shape now1 k1 c1) as (f1 & H1).
  destruct (check_shape now2 k2 c2) as (f2 & H2).
  cbv zeta. rewrite ?H1, ?H2. cbn [fst snd]. rewrite ?H1, ?H2. cbn [fst snd].
  assert (E1 : forall u (s : RateLimiter.Store),
             match u with Some e => <[k2 := e]> s | None => s end !! k1 = s !! k1).
  { intros [e|] s; [|reflexivity]. apply lookup_insert_ne. congruence. }
  assert (E2 : forall u (s : RateLimiter.Store),
             match u with Some e => <[k1 := e]> s | None => s end !! k2 = s !! k2).
  { intros [e|] s; [|reflexivity]. apply lookup_insert_ne. congruence. }
  rewrite E1, E2. split; [reflexivity|]. split; [reflexivity|].
  destruct (snd (f1 (store !! k1))) as [e1|], (snd (f2 (store !! k2))) as [e2|];
    try reflexivity.
  apply insert_insert_ne. congruence.
Qed.

(** Two clients, one of them at its limit. *)
Lemma checks_of_distinct_keys_commute_witness :
  let store := snd (RateLimiter.checks [1000; 1001; 1002; 1003; 1004; 1005]
                      "10.0.0.7:curl" RateLimiter.ORDER_CREATE ∅) in
  fst (RateLimiter.check 2000 "10.0.0.7:curl" RateLimiter.ORDER_CREATE
         (snd (RateLimiter.check 1500 "10.0.0.8:curl" RateLimiter.ORDER_CREATE store)))
  = fst (RateLimiter.check 2000 "10.0.0.7:curl" RateLimiter.ORDER_CREATE store).
Proof.
  intros store.
  destruct (checks_of_distinct_keys_commute 1500 2000 "10.0.0.8:curl" "10.0.0.7:curl"
              RateLimiter.ORDER_CREATE RateLimiter.ORDER_CREATE store)
    as (_ & H & _); [discriminate|exact H].
Defined.

(** X4: a creation request of a client that has used up its window (six
    requests, the window not over, its last instant included) is answered
    429 with a non-negative wait, and changes neither the datastore nor the
    limiter; the wait it reports reaches the reset time, at which a request
    is still refused. *)
Theorem create_order_rate_limited now now' clientId timestamp randomSuffix newId
    faults request limiter db e :
  limiter !! clientId = Some e ->
  6 <= RateLimiter.count e ->
  now <= RateLimiter.resetTime e ->
  Served.createOrder now now' clientId timestamp randomSuffix newId faults request
    (limiter, db)
  = (Http.json 429
       (Http.RateLimited
          "Too many order creation attempts. Please wait before trying again."
          (RateLimiter.retryAfterSeconds (RateLimiter.resetTime e) now')),
     (limiter, db))
  /\ (now' <= RateLimiter.resetTime e ->
      0 <= RateLimiter.retryAfterSeconds (RateLimiter.resetTime e) now'
      /\ RateLimiter.resetTime e
         <= now' + 1000 * RateLimiter.retryAfterSeconds (RateLimiter.resetTime e) now'
         < RateLimiter.resetTime e + 1000)
  /\ RateLimiter.isAllowed
       (fst (RateLimiter.check (RateLimiter.resetTime e) clientId
               RateLimiter.ORDER_CREATE limiter)) = false.
Proof.
  intros He Hc Hnow. split; [|split].
  - unfold Served.createOrder. rewrite (check_live _ _ _ _ _ He Hnow).
    destruct (Z.ltb_spec (RateLimiter.count e)
                (RateLimiter.maxRequests RateLimiter.ORDER_CREATE)) as [H|_];
      [simpl in H; lia|].
    reflexivity.
  - intros Hn. unfold RateLimiter.retryAfterSeconds.
    pose proof (Z.div_mod (- (RateLimiter.resetTime e - now')) 1000 ltac:(lia)).
    pose proof (Z.mod_pos_bound (- (RateLimiter.resetTime e - now')) 1000 ltac:(lia)).
    lia.
  - rewrite (check_live _ _ _ _ _ He (Z.le_refl _)).
    destruct (Z.ltb_spec (RateLimiter.count e)
                (RateLimiter.maxRequests RateLimiter.ORDER_CREATE)) as [H|_];
      [simpl in H; lia|].
    reflexivity.
Qed.

(** A seventh creation request 1 s into the window of the first six. *)
Lemma create_order_rate_limited_witness :
  let limiter := snd (RateLimiter.checks [1000; 1001; 1002; 1003; 1004; 1005]
                        "10.0.0.7:curl" RateLimiter.ORDER_CREATE ∅) in
  Served.createOrder 2000 2001 "10.0.0.7:curl" "1700000000000" "K3J9Q2A" "order-2"
    Scenario.createOk
    (Http.Validated (Scenario.order [Scenario.widget 3] 75%float))
    (limiter, Scenario.catalogue 10)
  = (Http.json 429
       (Http.RateLimited
          "Too many order creation attempts. Please wait before trying again." 59),
     (limiter, Scenario.catalogue 10)).
Proof.
  intros limiter.
  refine (proj1 (create_order_rate_limited 2000 2001 "10.0.0.7:curl" "1700000000000"
                   "K3J9Q2A" "order-2" Scenario.createOk
                   (Http.Validated (Scenario.order [Scenario.widget 3] 75%float))
                   limiter (Scenario.catalogue 10)
                   {| RateLimiter.count := 6; RateLimiter.resetTime := 61000 |}
                   _ _ _)).
  - vm_compute. reflexivity.
  - simpl. lia.
  - simpl. lia.
Defined.

(* ===================================================================== *)
(** * Prices, the cart and the checkout page *)
(* ===================================================================== *)

Lemma float_leb_negb_ltb x y :
  PrimFloat.is_nan x = false -> PrimFloat.is_nan y = false ->
  PrimFloat.leb x y = negb (PrimFloat.ltb y x).
Proof.
  intros Hx Hy. rewrite FloatAxioms.ltb_spec, FloatAxioms.leb_spec.
  unfold SFltb, SFleb.
  rewrite (SFcompare_swap (Prim2SF x) (Prim2SF y)).
  destruct (SFcompare (Prim2SF x) (Prim2SF y)) as [[]|] eqn:E; simpl; try reflexivity.
  apply SFcompare_none in E.
  apply float_not_nan_compare in Hx. apply float_not_nan_compare in Hy.
  destruct E; congruence.
Qed.

(** X5: the price helper reduces a price exactly for the products that
    [hasDiscount] reports as discounted: with no discount, a zero, negative
    or NaN one, the price is returned as it is; otherwise it is
    price - price x discount / 100. *)
Theorem discounted_price_agrees_with_hasDiscount price discount :
  (Pricing.hasDiscount discount = false ->
   Pricing.calculateDiscountedPrice price discount = price)
  /\ (Pricing.hasDiscount discount = true ->
      exists d, discount = Some d
                /\ Pricing.calculateDiscountedPrice price discount
                   = PrimFloat.sub price
                       (PrimFloat.div (PrimFloat.mul price d) 100%float)).
Proof.
  unfold Pricing.hasDiscount, Pricing.calculateDiscountedPrice.
  destruct discount as [d|]; simpl; [|split; [reflexivity|discriminate]].
  unfold Js.truthy_number.
  destruct (PrimFloat.is_zero d || PrimFloat.is_nan d) eqn:E; simpl.
  - split; [reflexivity|discriminate].
  - apply orb_false_iff in E. destruct E as (_ & Hn).
    rewrite (float_leb_negb_ltb d 0%float Hn eq_refl).
    destruct (PrimFloat.ltb 0 d); simpl; split; try discriminate; try reflexivity.
    intros _. exists d. auto.
Qed.

Lemma discounted_price_agrees_with_hasDiscount_witness :
  Pricing.calculateDiscountedPrice 80%float (Some (-5)%float) = 80%float
  /\ Pricing.calculateDiscountedPrice 80%float (Some 25%float) = 60%float.
Proof.
  destruct (discounted_price_agrees_with_hasDiscount 80%float (Some (-5)%float))
    as (H1 & _).
  destruct (discounted_price_agrees_with_hasDiscount 80%float (Some 25%float))
    as (_ & H2).
  split; [exact (H1 eq_refl)|].
  destruct (H2 eq_refl) as (d & [= <-] & ->). vm_compute. reflexivity.
Defined.

Lemma subtotal_fold cart acc :
  fold_left (fun sum item => PrimFloat.add sum (CreateOrder.itemTotal item))
    (Checkout.orderItems cart) acc
  = fold_left
      (fun total item =>
         PrimFloat.add total
           (PrimFloat.mul
              (PrimFloat.add
                 (Pricing.calculateDiscountedPrice (Cart.price item) (Cart.discount item))
                 (Cart.modifiersPrice item))
              (Js.number_of_Z (Cart.quantity item))))
      cart acc.
Proof.
  revert acc. induction cart as [|item cart IH]; intros acc; [reflexivity|].
  simpl. apply IH.
Qed.

(** X6: the subtotal the creation handler recomputes from the items the
    checkout page posts is exactly the page's own subtotal; so the two
    totals it compares are (subtotal + shipping) - discount on the server
    and max((subtotal - discount) + shipping, 0) on the page. *)
Theorem server_subtotal_is_page_subtotal cart appliedCoupon shippingCost address :
  let d := Checkout.orderRequest cart appliedCoupon shippingCost address in
  let subtotal := Cart.getTotalPrice cart in
  let discount := Checkout.couponDiscount appliedCoupon subtotal in
  CreateOrder.calculatedSubtotal (CreateOrder.items d) = subtotal
  /\ CreateOrder.calculatedTotal d
     = PrimFloat.sub (PrimFloat.add subtotal shippingCost) discount
  /\ CreateOrder.totalAmount d
     = Pricing.Math_max
         (PrimFloat.add (PrimFloat.sub subtotal discount) shippingCost) 0%float.
Proof.
  intros d subtotal discount.
  assert (H : CreateOrder.calculatedSubtotal (Checkout.orderItems cart)
              = Cart.getTotalPrice cart) by apply subtotal_fold.
  split; [exact H|]. split; [|reflexivity].
  unfold CreateOrder.calculatedTotal. simpl. rewrite H. reflexivity.
Qed.







(** X8: changing a quantity keeps every quantity positive: a quantity of
    zero or less removes the lines with that id (as [removeFromCart] does),
    a positive one is stored on them, and all other lines stay as they are. *)
Theorem updateQuantity_keeps_cart_positive cartItemId quantity cart :
  Forall (fun item => 0 < Cart.quantity item) cart ->
  let cart' := Cart.updateQuantity cartItemId quantity cart in
  Forall (fun item => 0 < Cart.quantity item) cart'
  /\ (forall item, In item cart -> Cart.cartItemId item <> cartItemId -> In item cart')
  /\ (forall item, In item cart' -> Cart.cartItemId item = cartItemId ->
                   0 < quantity /\ Cart.quantity item = quantity)
  /\ (quantity <= 0 -> cart' = Cart.removeFromCart cartItemId cart)
  /\ (0 < quantity -> length cart' = length cart).
Proof.
  intros Hpos cart'. unfold cart', Cart.updateQuantity, Cart.removeFromCart.
  rewrite Forall_forall in Hpos.
  destruct (Z.leb_spec quantity 0) as [Hq|Hq].
  - split; [|split; [|split; [|split]]].
    + apply Forall_forall. intros x Hx. apply list_elem_of_In, filter_In in Hx.
      apply Hpos, list_elem_of_In. tauto.
    + intros item Hin Hne. apply filter_In. split; [exact Hin|].
      now destruct (String.eqb_spec (Cart.cartItemId item) cartItemId).
    + intros item Hin Heq. apply filter_In in Hin. destruct Hin as (_ & Hin).
      rewrite Heq, String.eqb_refl in Hin. discriminate.
    + reflexivity.
    + lia.
  - split; [|split; [|split; [|split]]].
    + apply Forall_forall. intros x Hx. apply list_elem_of_In, in_map_iff in Hx.
      destruct Hx as (item & <- & Hitem).
      destruct (String.eqb _ _); simpl; [lia|]. apply Hpos, list_elem_of_In, Hitem.
    + intros item Hin Hne. apply in_map_iff. exists item. split; [|exact Hin].
      now destruct (String.eqb_spec (Cart.cartItemId item) cartItemId).
    + intros item Hin Heq. apply in_map_iff in Hin. destruct Hin as (i & <- & Hi).
      destruct (String.eqb_spec (Cart.cartItemId i) cartItemId) as [E|E].
      * simpl. auto.
      * contradiction.
    + lia.
    + intros _. apply length_map.
Qed.

Lemma updateQuantity_keeps_cart_positive_witness :
  Cart.updateQuantity "tee_colour:red|size:l_1700000000001" 0 Sample.oneTee = []
  /\ Cart.getTotalItems
       (Cart.updateQuantity "tee_colour:red|size:l_1700000000001" 4 Sample.oneTee) = 4.
Proof.
  assert (Hpos : Forall (fun item => 0 < Cart.quantity item) Sample.oneTee)
    by (repeat constructor).
  destruct (updateQuantity_keeps_cart_positive "tee_colour:red|size:l_1700000000001" 0
              Sample.oneTee Hpos) as (_ & _ & _ & H & _).
  split; [rewrite (H ltac:(lia)); vm_compute; reflexivity | vm_compute; reflexivity].
Defined.

(** X9: adding a product in a configuration the cart does not hold, under
    a line id no line has, and removing that line again gives back the
    cart. *)
Theorem remove_undoes_add now product selectedModifiers cart :
  let newId :=
    Cart.product_id product ++ "_" ++ Cart.modifierKey selectedModifiers ++ "_" ++ now in
  (forall item, In item cart ->
     Cart.id item = Cart.product_id product ->
     Cart.modifierKey (Cart.selectedModifiers item)
     <> Cart.modifierKey selectedModifiers) ->
  (forall item, In item cart -> Cart.cartItemId item <> newId) ->
  Cart.removeFromCart newId (Cart.addToCart now product selectedModifiers cart) = cart.
Proof.
  intros newId Hconf Hfresh. unfold Cart.addToCart.
  destruct (List.find _ cart) as [existing|] eqn:Hfind.
  - exfalso. apply find_some in Hfind. destruct Hfind as (Hin & Hf).
    destruct (String.eqb_spec (Cart.id existing) (Cart.product_id product)) as [E|E];
      simpl in Hf; [|discriminate].
    apply String.eqb_eq in Hf. exact (Hconf existing Hin E Hf).
  - unfold Cart.removeFromCart. rewrite List.filter_app. simpl.
    fold newId. rewrite String.eqb_refl. simpl. rewrite app_nil_r.
    clear Hfind Hconf. induction cart as [|item cart IH]; [reflexivity|].
    simpl. destruct (String.eqb_spec (Cart.cartItemId item) newId) as [E|_].
    + exfalso. exact (Hfresh item (or_introl eq_refl) E).
    + simpl. f_equal. apply IH. intros i Hi. apply Hfresh. now right.
Qed.

Lemma remove_undoes_add_witness :
  Cart.removeFromCart "tee__1700000000009"
    (Cart.addToCart "1700000000009" Sample.tee None Sample.oneTee) = Sample.oneTee.
Proof.
  apply (remove_undoes_add "1700000000009" Sample.tee None Sample.oneTee).
  - intros item [<-|[]] _. vm_compute. discriminate.
  - intros item [<-|[]]. vm_compute. discriminate.
Defined.

(** The order on strings used by [sort] is a total order. *)
Lemma string_compare_lt_trans a b c :
  String.compare a b = Lt -> String.compare b c = Lt -> String.compare a c = Lt.
Proof.
  revert b c. induction a as [|x a IH]; intros [|y b] [|z c]; simpl;
    try discriminate; try reflexivity.
  unfold Ascii.compare.
  destruct (N.compare_spec (Ascii.N_of_ascii x) (Ascii.N_of_ascii y)) as [Hxy|Hxy|Hxy];
    destruct (N.compare_spec (Ascii.N_of_ascii y) (Ascii.N_of_ascii z)) as [Hyz|Hyz|Hyz];
    try discriminate; intros H1 H2.
  - rewrite Hxy, Hyz, N.compare_refl. eauto.
  - rewrite Hxy. apply N.compare_lt_iff in Hyz. now rewrite Hyz.
  - rewrite <- Hyz. apply N.compare_lt_iff in Hxy. now rewrite Hxy.
  - assert (H : (Ascii.N_of_ascii x < Ascii.N_of_ascii z)%N) by lia.
    apply N.compare_lt_iff in H. now rewrite H.
Qed.

#[local] Instance string_le_trans : Transitive Cart.string_le.
Proof.
  intros a b c. unfold Cart.string_le, String.leb.
  destruct (String.compare a b) eqn:Hab; try discriminate;
    destruct (String.compare b c) eqn:Hbc; try discriminate; intros _ _.
  - apply String.compare_eq_iff in Hab. subst. now rewrite Hbc.
  - apply String.compare_eq_iff in Hab. subst. now rewrite Hbc.
  - apply String.compare_eq_iff in Hbc. subst. now rewrite Hab.
  - now rewrite (string_compare_lt_trans _ _ _ Hab Hbc).
Qed.

#[local] Instance string_le_antisym : AntiSymm eq Cart.string_le.
Proof. intros a b. apply String.leb_antisym. Qed.

#[local] Instance string_le_total : Total Cart.string_le.
Proof. intros a b. apply String.leb_total. Qed.

(** X10: the configuration key does not depend on the order in which the
    modifiers were chosen; so adding a product whose modifiers are those of
    a line of the cart, in any order, raises that configuration instead of
    adding a line. *)
Theorem modifier_order_is_irrelevant mods mods' :
  Permutation mods mods' ->
  Cart.modifierKey (Some mods) = Cart.modifierKey (Some mods')
  /\ forall now product cart item,
       In item cart ->
       Cart.id item = Cart.product_id product ->
       Cart.selectedModifiers item = Some mods ->
       length (Cart.addToCart now product (Some mods') cart) = length cart.
Proof.
  intros Hperm.
  assert (Hkey : Cart.modifierKey (Some mods) = Cart.modifierKey (Some mods')).
  { unfold Cart.modifierKey. f_equal.
    apply (Sorted_unique Cart.string_le).
    - apply Sorted_merge_sort, _.
    - apply Sorted_merge_sort, _.
    - rewrite !merge_sort_Permutation. now apply Permutation_map. }
  split; [exact Hkey|].
  intros now product cart item Hin Hid Hmods. unfold Cart.addToCart.
  destruct (List.find _ cart) as [existing|] eqn:Hfind; [apply length_map|].
  exfalso. pose proof (find_none _ _ Hfind item Hin) as Hf. simpl in Hf.
  rewrite Hid, String.eqb_refl, Hmods, Hkey, String.eqb_refl in Hf. discriminate.
Qed.

Lemma modifier_order_is_irrelevant_witness :
  Cart.modifierKey (Some [Sample.red; Sample.large])
  = Cart.modifierKey (Some [Sample.large; Sample.red]).
Proof.
  refine (proj1 (modifier_order_is_irrelevant [Sample.red; Sample.large]
                   [Sample.large; Sample.red] _)).
  apply perm_swap.
Defined.

(* ===================================================================== *)
(** * The coupon validation route *)
(* ===================================================================== *)

Lemma single_In {A} (rows : list A) row : CouponRoute.single rows = Some row -> rows = [row].
Proof. destruct rows as [|r [|r' rows]]; simpl; congruence. Qed.

(** X11: the route accepts a coupon only when the body names a code and a
    non-zero order total (a number other than 0, -0 and NaN), the coupons
    table holds exactly one coupon under
    the upper-cased code, and the evaluator accepts it; the discount it
    returns is the evaluator's capped one, which the order total is never
    below. *)
Theorem coupon_route_accepts_only_valid toFixed2 toUpperCase now faults request
    tables id code discount_type discount_value discount :
  CouponRoute.POST toFixed2 toUpperCase now faults request tables
  = CouponRoute.Accepted id code discount_type discount_value discount ->
  exists body code_ orderTotal coupon,
    request = Some body
    /\ CouponRoute.code body = Some code_ /\ code_ <> ""
    /\ CouponRoute.orderTotal body = Some orderTotal
    /\ Js.truthy_number orderTotal = true
    /\ PrimFloat.is_zero orderTotal = false /\ PrimFloat.is_nan orderTotal = false
    /\ List.filter (fun c => String.eqb (Coupon.code c) (toUpperCase code_))
         (CouponRoute.coupons tables) = [coupon]
    /\ id = Coupon.id coupon /\ code = Coupon.code coupon
    /\ Coupon.valid
         (Coupon.validateCoupon toFixed2 now coupon orderTotal
            (CouponRoute.customerEmail body) (CouponRoute.cartProductIds body)) = true
    /\ discount
       = Some (Js.Math_min (Spec.uncappedDiscount coupon orderTotal) orderTotal)
    /\ forall d, discount = Some d -> PrimFloat.ltb orderTotal d = false.
Proof.
  unfold CouponRoute.POST. destruct request as [body|]; [|discriminate].
  destruct (CouponRoute.code body) as [code_|] eqn:Hcode; simpl; [|discriminate].
  destruct (String.eqb_spec code_ "") as [|Hne]; simpl; [discriminate|].
  destruct (CouponRoute.orderTotal body) as [orderTotal|] eqn:Htotal; simpl;
    [|discriminate].
  destruct (Js.truthy_number orderTotal) eqn:Htruthy; simpl; [|discriminate].
  assert (Hnum : PrimFloat.is_zero orderTotal = false
                 /\ PrimFloat.is_nan orderTotal = false).
  { unfold Js.truthy_number in Htruthy. apply negb_true_iff, orb_false_iff in Htruthy.
    exact Htruthy. }
  destruct Hnum as (Hzero & Hnan).
  destruct (CouponRoute.couponFetchFails faults); [discriminate|].
  destruct (CouponRoute.single _) as [coupon|] eqn:Hsingle; [|discriminate].
  apply single_In in Hsingle.
  match goal with |- context [if ?u then CouponRoute.Failed 400 (Some "You have already used this coupon") else _] => destruct u end;
    [discriminate|].
  destruct (Coupon.valid _) eqn:Hvalid; simpl; [|discriminate].
  intros [= <- <- <- <- <-].
  exists body, code_, orderTotal, coupon.
  rewrite (validateCoupon_valid_inv _ _ _ _ _ _ Hvalid). simpl.
  repeat (split; [first [reflexivity | assumption]|]).
  intros d [= <-]. apply Math_min_not_above.
Qed.

(** SAVE10 asked for in lower case on a total of 100. *)
Lemma coupon_route_accepts_only_valid_witness :
  CouponRoute.POST Scenario.toFixed2 Sample.asciiUpper 5000 Sample.couponOk
    (Some (Sample.couponBody "save10" None)) Sample.couponTables
  = CouponRoute.Accepted "c-1" "SAVE10" Coupon.percentage 10%float (Some 10%float)
  /\ PrimFloat.ltb 100%float 10%float = false.
Proof.
  assert (H : CouponRoute.POST Scenario.toFixed2 Sample.asciiUpper 5000 Sample.couponOk
                (Some (Sample.couponBody "save10" None)) Sample.couponTables
              = CouponRoute.Accepted "c-1" "SAVE10" Coupon.percentage 10%float
                  (Some 10%float)) by (vm_compute; reflexivity).
  split; [exact H|].
  destruct (coupon_route_accepts_only_valid _ _ _ _ _ _ _ _ _ _ _ H)
    as (body & code_ & total & coupon & Hreq & _ & _ & Htotal & _ & _ & _ & _ & _ & _
        & _ & _ & Hcap).
  injection Hreq as <-. injection Htotal as <-. exact (Hcap 10%float eq_refl).
Defined.

(** X12: the one-use-per-customer rule is applied only when the body
    carries a non-empty customer email and the usage lookup answers: with
    no email, or a failing lookup, the recorded usages have no influence on
    the reply; with an email whose single usage row is found, the coupon is
    refused. *)
Theorem one_per_customer_rule toFixed2 toUpperCase now faults body coupons :
  (CouponRoute.truthy_opt_string (CouponRoute.customerEmail body) = false
   \/ CouponRoute.usageFetchFails faults = true ->
   forall usage usage',
     CouponRoute.POST toFixed2 toUpperCase now faults (Some body)
       {| CouponRoute.coupons := coupons; CouponRoute.coupon_usage := usage |}
     = CouponRoute.POST toFixed2 toUpperCase now faults (Some body)
         {| CouponRoute.coupons := coupons; CouponRoute.coupon_usage := usage' |})
  /\ (forall code_ orderTotal email coupon usage row,
      CouponRoute.code body = Some code_ -> code_ <> "" ->
      CouponRoute.orderTotal body = Some orderTotal ->
      Js.truthy_number orderTotal = true ->
      CouponRoute.customerEmail body = Some email -> email <> "" ->
      CouponRoute.couponFetchFails faults = false ->
      CouponRoute.usageFetchFails faults = false ->
      List.filter (fun c => String.eqb (Coupon.code c) (toUpperCase code_)) coupons
      = [coupon] ->
      Coupon.one_per_customer coupon = true ->
      List.filter
        (fun u => String.eqb (CouponRoute.coupon_id u) (Coupon.id coupon)
                  && String.eqb (CouponRoute.customer_email u) email) usage = [row] ->
      CouponRoute.POST toFixed2 toUpperCase now faults (Some body)
        {| CouponRoute.coupons := coupons; CouponRoute.coupon_usage := usage |}
      = CouponRoute.Failed 400 (Some "You have already used this coupon")).
Proof.
  split.
  - intros Hskip usage usage'. unfold CouponRoute.POST. simpl.
    destruct (_ || _); [reflexivity|].
    destruct (if CouponRoute.couponFetchFails faults then None else _) as [coupon|];
      [|reflexivity].
    destruct Hskip as [-> | ->].
    + now rewrite andb_false_r.
    + now destruct (_ && _).
  - intros code_ orderTotal email coupon usage row Hcode Hne Htotal Htruthy Hemail
      Hene Hcf Huf Hcoupon Hone Hrow.
    unfold CouponRoute.POST. simpl.
    rewrite Hcode, Htotal, Hemail, Hcf, Huf. simpl.
    destruct (String.eqb_spec code_ "") as [|_]; [contradiction|].
    destruct (String.eqb_spec email "") as [|_]; [contradiction|].
    rewrite Htruthy. simpl. rewrite Hcoupon. simpl. rewrite Hone. simpl.
    rewrite Hrow. reflexivity.
Qed.

(** The welcome coupon, used once by ada@example.org: refused with her
    email, accepted with none. *)
Lemma one_per_customer_rule_witness :
  CouponRoute.POST Scenario.toFixed2 Sample.asciiUpper 5000 Sample.couponOk
    (Some (Sample.couponBody "WELCOME" (Some "ada@example.org"))) Sample.couponTables
  = CouponRoute.Failed 400 (Some "You have already used this coupon")
  /\ CouponRoute.POST Scenario.toFixed2 Sample.asciiUpper 5000 Sample.couponOk
       (Some (Sample.couponBody "WELCOME" (Some ""))) Sample.couponTables
     = CouponRoute.POST Scenario.toFixed2 Sample.asciiUpper 5000 Sample.couponOk
         (Some (Sample.couponBody "WELCOME" (Some "")))
         {| CouponRoute.coupons := CouponRoute.coupons Sample.couponTables;
            CouponRoute.coupon_usage := [] |}.
Proof.
  split.
  - destruct (one_per_customer_rule Scenario.toFixed2 Sample.asciiUpper 5000
                Sample.couponOk (Sample.couponBody "WELCOME" (Some "ada@example.org"))
                (CouponRoute.coupons Sample.couponTables)) as (_ & H).
    apply (H "WELCOME" 100%float "ada@example.org" Sample.welcome
             (CouponRoute.coupon_usage Sample.couponTables)
             {| CouponRoute.coupon_id := "c-3";
                CouponRoute.customer_email := "ada@example.org" |});
      try reflexivity; discriminate.
  - destruct (one_per_customer_rule Scenario.toFixed2 Sample.asciiUpper 5000
                Sample.couponOk (Sample.couponBody "WELCOME" (Some ""))
                (CouponRoute.coupons Sample.couponTables)) as (H & _).
    apply (H (or_introl eq_refl)).
Defined.

(* ===================================================================== *)
(** * Linking the invoice, and the settlement *)
(* ===================================================================== *)

(** What the route does to the datastore. *)
Lemma update_invoice_db rateLimit updateFails request db :
  snd (UpdateInvoice.POST rateLimit updateFails request db)
  = match request with
    | Http.Validated d =>
        if Http.isAllowed rateLimit && negb updateFails
        then Store.with_orders
               (alter (UpdateInvoice.set_invoice (UpdateInvoice.invoiceId d))
                  (UpdateInvoice.orderId d) (Store.orders db)) db
        else db
    | _ => db
    end.
Proof.
  unfold UpdateInvoice.POST, Store.update_order.
  destruct (Http.isAllowed rateLimit); simpl.
  - destruct request as [| |d]; try reflexivity. now destruct updateFails.
  - now destruct request.
Qed.



Lemma decrementItem_with_orders fetchFails updateFails item os db :
  MarkPaid.decrementItem fetchFails updateFails item (Store.with_orders os db)
  = Store.with_orders os (MarkPaid.decrementItem fetchFails updateFails item db).
Proof.
  unfold MarkPaid.decrementItem, Store.select_product, Store.update_stock.
  destruct fetchFails; [reflexivity|]. simpl.
  destruct (Store.products db !! Item.id item); [|reflexivity].
  now destruct updateFails.
Qed.

Lemma decrementStock_with_orders faults i items os db :
  MarkPaid.decrementStock faults i items (Store.with_orders os db)
  = Store.with_orders os (MarkPaid.decrementStock faults i items db).
Proof.
  revert i db. induction items as [|item items IH]; intros i db; [reflexivity|].
  simpl. now rewrite decrementItem_with_orders, IH.
Qed.

Lemma alter_alter_commute {A} (f g : A -> A) (i j : string) (m : gmap string A) :
  (forall x, f (g x) = g (f x)) ->
  alter f i (alter g j m) = alter g j (alter f i m).
Proof.
  intros Hfg. apply map_eq. intros k.
  destruct (decide (k = i)) as [Hi|Hi]; destruct (decide (k = j)) as [Hj|Hj]; subst.
  - rewrite !lookup_alter_eq. destruct (m !! j); simpl; [now rewrite Hfg | reflexivity].
  - repeat first [rewrite lookup_alter_eq | rewrite lookup_alter_ne by congruence].
    reflexivity.
  - repeat first [rewrite lookup_alter_eq | rewrite lookup_alter_ne by congruence].
    reflexivity.
  - now rewrite !lookup_alter_ne by congruence.
Qed.

(** X14: linking the invoice and settling the order commute: the
    settlement answers the same, and the datastore ends the same, whether
    the invoice was linked before or after, whatever calls fail. *)
Theorem invoice_link_commutes_with_settlement env faults request rateLimit updateFails
    linkRequest db :
  let link db := snd (UpdateInvoice.POST rateLimit updateFails linkRequest db) in
  fst (MarkPaid.POST env faults request (link db))
  = fst (MarkPaid.POST env faults request db)
  /\ snd (MarkPaid.POST env faults request (link db))
     = link (snd (MarkPaid.POST env faults request db)).
Proof.
  intros link. unfold link. rewrite !update_invoice_db.
  destruct linkRequest as [| |d]; try (split; reflexivity).
  destruct (_ && _); [|split; reflexivity].
  set (g := UpdateInvoice.set_invoice (UpdateInvoice.invoiceId d)).
  set (j := UpdateInvoice.orderId d).
  unfold MarkPaid.POST.
  destruct (negb _); [split; reflexivity|].
  destruct request as [| |orderId]; try (split; reflexivity).
  unfold Store.select_order, Store.update_order.
  destruct (MarkPaid.orderFetchFails faults); [split; reflexivity|].
  cbn [Store.orders Store.with_orders].
  assert (Hsel : Store.orders db !! orderId = None
                 /\ alter g j (Store.orders db) !! orderId = None
                 \/ exists o o', Store.orders db !! orderId = Some o
                                 /\ alter g j (Store.orders db) !! orderId = Some o'
                                 /\ Order.status o' = Order.status o
                                 /\ Order.items o' = Order.items o).
  { destruct (decide (orderId = j)) as [->|Hne].
    - rewrite lookup_alter_eq. destruct (Store.orders db !! j) as [o|]; simpl; eauto.
      right. exists o, (g o). auto.
    - rewrite lookup_alter_ne by congruence.
      destruct (Store.orders db !! orderId) as [o|]; eauto.
      right. exists o, o. auto. }
  destruct Hsel as [(-> & ->)|(o & o' & -> & -> & Hst & Hit)]; [split; reflexivity|].
  rewrite Hst, Hit. destruct (String.eqb _ _); [split; reflexivity|].
  rewrite decrementStock_with_orders.
  destruct (MarkPaid.statusUpdateFails faults); cbn [fst snd];
    (split; [reflexivity|]);
    unfold Store.with_orders; cbn [Store.orders Store.products];
    rewrite !decrementStock_orders; [reflexivity|].
  f_equal. apply alter_alter_commute. intros x. reflexivity.
Qed.

(** The quantity a list of lines asks of one product. *)
Lemma asked_nonneg k items :
  Forall (fun item => 0 <= Item.quantity item) items ->
  0 <= fold_right Z.add 0
         (List.map Item.quantity
            (List.filter (fun item => String.eqb (Item.id item) k) items)).
Proof.
  induction 1 as [|item items Hq _ IH]; simpl; [lia|].
  destruct (String.eqb _ _); simpl; lia.
Qed.

(** X15: when every fetch and update goes through, the stock loop leaves
    each product with max(0, stock - the quantity all the lines of the
    order ask of it): lines of one product add up, and the clamp applies
    to their sum. *)
Theorem settlement_decrements_by_total faults i items db k p :
  (forall n, MarkPaid.productFetchFails faults n = false) ->
  (forall n, MarkPaid.stockUpdateFails faults n = false) ->
  Forall (fun item => 0 <= Item.quantity item) items ->
  Store.products db !! k = Some p ->
  0 <= Product.stock p ->
  Product.stock <$> Store.products (MarkPaid.decrementStock faults i items db) !! k
  = Some (Z.max 0
            (Product.stock p
             - fold_right Z.add 0
                 (List.map Item.quantity
                    (List.filter (fun item => String.eqb (Item.id item) k) items)))).
Proof.
  intros Hf Hu Hq. revert i db p.
  induction Hq as [|item items Hq0 Hq IH]; intros i db p Hp Hs.
  - simpl. rewrite Hp. simpl. f_equal. lia.
  - cbn [MarkPaid.decrementStock]. rewrite (Hf i), (Hu i).
    pose proof (asked_nonneg k items Hq) as Hsum.
    pose proof (decrementItem_lookup false false item db k) as Hstep.
    rewrite Hp in Hstep. simpl in Hstep.
    cbn [List.filter].
    destruct (String.eqb_spec (Item.id item) k) as [E|E].
    + destruct (decide (k = Item.id item)) as [_|Hne]; [|congruence].
      rewrite (IH _ _ _ Hstep) by (simpl; lia).
      cbn [List.map fold_right Product.stock Product.with_stock]. f_equal. lia.
    + destruct (decide (k = Item.id item)) as [Heq|_]; [congruence|].
      rewrite (IH _ _ _ Hstep Hs). reflexivity.
Qed.

(** Stock 10, an order with two lines of the widget (3 and 9) and one of
    the gadget: the widget ends at 0, the gadget at 2. *)
Lemma settlement_decrements_by_total_witness :
  let items := [Scenario.widget 3; Scenario.gadget 2; Scenario.widget 9] in
  Scenario.stockOf "widget"
    (MarkPaid.decrementStock Scenario.settleOk 0 items (Scenario.catalogue 10)) = Some 0
  /\ Scenario.stockOf "gadget"
       (MarkPaid.decrementStock Scenario.settleOk 0 items (Scenario.catalogue 10))
     = Some 2.
Proof.
  intros items.
  assert (Hq : Forall (fun item => 0 <= Item.quantity item) items)
    by (repeat constructor; simpl; lia).
  split.
  - unfold Scenario.stockOf.
    rewrite (settlement_decrements_by_total Scenario.settleOk 0 items
               (Scenario.catalogue 10) "widget"
               {| Product.name := "Widget"; Product.price := 20%float;
                  Product.stock := 10 |}
               (fun _ => eq_refl) (fun _ => eq_refl) Hq eq_refl ltac:(simpl; lia)).
    reflexivity.
  - unfold Scenario.stockOf.
    rewrite (settlement_decrements_by_total Scenario.settleOk 0 items
               (Scenario.catalogue 10) "gadget"
               {| Product.name := "Gadget"; Product.price := 7.5%float;
                  Product.stock := 4 |}
               (fun _ => eq_refl) (fun _ => eq_refl) Hq eq_refl ltac:(simpl; lia)).
    reflexivity.
Defined.

(** X16: creating an order reserves nothing: whatever the handler
    answers, the products table is as before and every order already
    stored stays as it is, so the stock check of any later request sees
    the same stock. *)
Theorem create_order_reserves_no_stock env faults request db :
  let db' := snd (CreateOrder.POST env faults request db) in
  Store.products db' = Store.products db
  /\ (forall k o, Store.orders db !! k = Some o -> Store.orders db' !! k = Some o)
  /\ (forall fetchFails i items,
        CreateOrder.checkStock fetchFails i items db'
        = CreateOrder.checkStock fetchFails i items db).
Proof.
  intros db'.
  assert (Hp : Store.products db' = Store.products db).
  { unfold db', CreateOrder.POST, Store.insert_order.
    destruct (negb _); [reflexivity|].
    destruct request as [| |d]; try reflexivity.
    destruct (CreateOrder.checkStock _ _ _ _); [reflexivity|].
    destruct (CreateOrder.totalMismatch d); [reflexivity|].
    destruct (CreateOrder.insertFails faults); [reflexivity|].
    destruct (Store.orders db !! _); reflexivity. }
  split; [exact Hp|]. split.
  - intros k o Hk. unfold db', CreateOrder.POST, Store.insert_order.
    destruct (negb _); [exact Hk|].
    destruct request as [| |d]; try exact Hk.
    destruct (CreateOrder.checkStock _ _ _ _); [exact Hk|].
    destruct (CreateOrder.totalMismatch d); [exact Hk|].
    destruct (CreateOrder.insertFails faults); [exact Hk|].
    destruct (Store.orders db !! CreateOrder.newId env) eqn:Hnew; [exact Hk|].
    simpl. rewrite lookup_insert_ne; [exact Hk|]. intros <-. congruence.
  - intros fetchFails i items. revert i.
    induction items as [|item items IH]; intros i; [reflexivity|].
    simpl. unfold Store.select_product. rewrite Hp, IH. reflexivity.
Qed.

(* ===================================================================== *)
(** * Shipping: the admin page and the sweep *)
(* ===================================================================== *)

(** X17: an order marked as shipped is due for its notification exactly
    from the scheduled time on, provided it has a shipping email and was
    never notified; an order already stamped with a sent time is not
    selected again, however often it is marked as shipped. *)
Theorem shipped_order_becomes_due notificationScheduledAt orderId trackingNumber
    trackingUrl db o :
  Store.orders db !! orderId = Some o ->
  let db' := snd (Admin.markAsShipped false notificationScheduledAt orderId
                    trackingNumber trackingUrl db) in
  let o' := Admin.shipped trackingNumber trackingUrl notificationScheduledAt o in
  Store.orders db' !! orderId = Some o'
  /\ Store.products db' = Store.products db
  /\ forall now,
       In (orderId, o') (Sweep.selectDue now db')
       <-> notificationScheduledAt <= now
           /\ Order.shipping_notification_sent_at o = None
           /\ is_Some (Order.shipping_email o).
Proof.
  intros Ho db' o'.
  assert (Hrow : Store.orders db' !! orderId = Some o').
  { unfold db', Admin.markAsShipped, Store.update_order. simpl.
    now rewrite lookup_alter_eq, Ho. }
  split; [exact Hrow|]. split; [reflexivity|].
  intros now. rewrite selectDue_spec, due_spec. unfold o' at 2 3 4 5 6. simpl.
  split.
  - intros (_ & (t & [= <-] & Ht) & Hsent & Hemail & _). auto.
  - intros (Ht & Hsent & Hemail). split; [exact Hrow|].
    split; [eauto|]. repeat split; eauto.
Qed.

(** The settled order of the shop, marked as shipped with a notification
    scheduled at 3600000: not due before, due from then on. *)
Lemma shipped_order_becomes_due_witness :
  let db := Scenario.shop 7 [Scenario.widget 3] in
  let db' := snd (Admin.markAsShipped false 3600000 "order-1" "1Z999"
                    "https://track.example.org/1Z999" db) in
  Sweep.selectDue 3599999 db' = []
  /\ List.map fst (Sweep.selectDue 3600000 db') = ["order-1"].
Proof.
  intros db db'.
  destruct (shipped_order_becomes_due 3600000 "order-1" "1Z999"
              "https://track.example.org/1Z999" db
              (Scenario.pendingOrder [Scenario.widget 3]) eq_refl) as (_ & _ & H).
  split; vm_compute; reflexivity.
Defined.

(** X18: the sweep writes nothing but sent times: the products are as
    before, every order is either untouched or the same order with its sent
    time stamped, and a sweep whose query fails does nothing at all. *)
Theorem sweep_changes_only_sent_times env faults w :
  let w' := Sweep.processPendingNotifications env faults w in
  Store.products (Sweep.db w') = Store.products (Sweep.db w)
  /\ (forall k,
        Store.orders (Sweep.db w') !! k = Store.orders (Sweep.db w) !! k
        \/ exists o, Store.orders (Sweep.db w) !! k = Some o
                     /\ Sweep.due (Sweep.now env) o = true
                     /\ Sweep.sendFails faults k = false
                     /\ Store.orders (Sweep.db w') !! k
                        = Some (Order.mark_notified (Sweep.stampedAt env k) o))
  /\ (Sweep.queryFails faults = true -> w' = w).
Proof.
  intros w'. unfold w'. clear w'.
  destruct (Sweep.queryFails faults) eqn:Hq.
  - unfold Sweep.processPendingNotifications. rewrite Hq. auto.
  - rewrite (processPendingNotifications_loop _ _ _ Hq).
    split; [|split; [|discriminate]].
    + generalize (Sweep.selectDue (Sweep.now env) (Sweep.db w)). intros l.
      revert w. induction l as [|[id o] l IH]; intros w; [reflexivity|].
      rewrite processOrders_cons, IH.
      destruct (Sweep.sendFails faults id); [reflexivity|]. simpl.
      now destruct (Sweep.stampFails faults id).
    + intros k.
      rewrite (processOrders_lookup _ _ _ _ _ (selectDue_NoDup _ _)).
      destruct (decide _) as [Hk|_]; [|left; reflexivity].
      unfold Spec.stamps.
      destruct (Sweep.sendFails faults k) eqn:Hs; [left; reflexivity|].
      destruct (Sweep.stampFails faults k); [left; reflexivity|]. simpl.
      apply list_elem_of_fmap in Hk. destruct Hk as ([k' o] & -> & Hin).
      apply list_elem_of_In, selectDue_spec in Hin. destruct Hin as (Ho & Hdue).
      simpl in *. right. exists o. rewrite Ho. auto.
Qed.

(** X19: when the mail goes out but the update that stamps the order
    fails, the order stays due, and the next sweep whose mailer works sends
    the same message a second time. *)
Theorem stamp_failure_sends_twice env faults env' faults' w k o :
  Sweep.queryFails faults = false ->
  Sweep.queryFails faults' = false ->
  In (k, o) (Sweep.selectDue (Sweep.now env) (Sweep.db w)) ->
  Sweep.sendFails faults k = false ->
  Sweep.stampFails faults k = true ->
  Sweep.now env <= Sweep.now env' ->
  Sweep.sendFails faults' k = false ->
  let w1 := Sweep.processPendingNotifications env faults w in
  let w2 := Sweep.processPendingNotifications env' faults' w1 in
  exists sent1 sent2,
    Sweep.outbox w1 = (Sweep.outbox w ++ sent1)%list
    /\ Sweep.outbox w2 = (Sweep.outbox w1 ++ sent2)%list
    /\ In (Sweep.shippingEmail o) sent1
    /\ In (Sweep.shippingEmail o) sent2.
Proof.
  intros Hq Hq' Hin Hsend Hstamp Hle Hsend' w1 w2.
  assert (Hsel1 : In (k, o) (Sweep.selectDue (Sweep.now env') (Sweep.db w1))).
  { apply selectDue_spec. apply selectDue_spec in Hin as Hrow.
    destruct Hrow as (Ho & Hdue).
    split; [|now apply (due_mono (Sweep.now env))].
    unfold w1. rewrite (processPendingNotifications_loop _ _ _ Hq).
    rewrite (processOrders_lookup _ _ _ _ _ (selectDue_NoDup _ _)).
    destruct (decide _); [|exact Ho].
    unfold Spec.stamps. rewrite Hsend, Hstamp. exact Ho. }
  assert (E1 : w1 = Sweep.processOrders env faults
                      (Sweep.selectDue (Sweep.now env) (Sweep.db w)) w)
    by (apply processPendingNotifications_loop; exact Hq).
  assert (E2 : w2 = Sweep.processOrders env' faults'
                      (Sweep.selectDue (Sweep.now env') (Sweep.db w1)) w1)
    by (apply processPendingNotifications_loop; exact Hq').
  exists (List.map (fun row => Sweep.shippingEmail (snd row))
            (List.filter (fun row => negb (Sweep.sendFails faults (fst row)))
               (Sweep.selectDue (Sweep.now env) (Sweep.db w)))),
         (List.map (fun row => Sweep.shippingEmail (snd row))
            (List.filter (fun row => negb (Sweep.sendFails faults' (fst row)))
               (Sweep.selectDue (Sweep.now env') (Sweep.db w1)))).
  split; [rewrite E1; apply processOrders_outbox|].
  split; [rewrite E2; apply processOrders_outbox|].
  split.
  - apply (in_map (fun row => Sweep.shippingEmail (snd row)) _ (k, o)).
    apply filter_In. split; [exact Hin|]. simpl. now rewrite Hsend.
  - apply (in_map (fun row => Sweep.shippingEmail (snd row)) _ (k, o)).
    apply filter_In. split; [exact Hsel1|]. simpl. now rewrite Hsend'.
Qed.

(** Scenario D with the stamping update down, followed by a sweep that
    works: the customer is mailed by both. *)
Lemma stamp_failure_sends_twice_witness :
  let o := Scenario.shippedOrder (Some "ada@example.org") in
  let w := Scenario.shipped (Some "ada@example.org") in
  let w1 := Sweep.processPendingNotifications Scenario.sweepEnv Scenario.stampDown w in
  let w2 := Sweep.processPendingNotifications Scenario.sweepEnv Scenario.sweepOk w1 in
  exists sent1 sent2,
    Sweep.outbox w1 = (Sweep.outbox w ++ sent1)%list
    /\ Sweep.outbox w2 = (Sweep.outbox w1 ++ sent2)%list
    /\ In (Sweep.shippingEmail o) sent1
    /\ In (Sweep.shippingEmail o) sent2.
Proof.
  intros o w.
  assert (Hsel : In ("order-1", o)
                   (Sweep.selectDue (Sweep.now Scenario.sweepEnv) (Sweep.db w)))
    by (vm_compute; auto).
  exact (stamp_failure_sends_twice Scenario.sweepEnv Scenario.stampDown
           Scenario.sweepEnv Scenario.sweepOk w "order-1" o
           eq_refl eq_refl Hsel eq_refl eq_refl (Z.le_refl _) eq_refl).
Defined.

(* ===================================================================== *)
(** * The payment screen under any schedule *)
(* ===================================================================== *)

(** X20: under any schedule of requests, answers and renders (requests
    overlapping, answers out of order), the page runs the settlement
    exactly at the first terminal-equivalent answer it handles, and never
    again; with no such answer it never runs. *)
Theorem settlement_runs_once_under_any_schedule events :
  PaymentScreen.settlements (PaymentScreen.run events PaymentScreen.init)
  = PaymentScreen.expectedFirings (PaymentScreen.answers events PaymentScreen.init)
  /\ (length (PaymentScreen.settlements (PaymentScreen.run events PaymentScreen.init))
      <= 1)%nat.
Proof.
  pose proof (schedule_from_idle events PaymentScreen.init eq_refl eq_refl eq_refl
                (List.Forall_nil (fun c : bool => c = false)) eq_refl eq_refl) as H.
  change (PaymentScreen.observed PaymentScreen.init) with 0%nat in H.
  unfold PaymentScreen.expectedFirings.
  destruct (PaymentScreen.firstTerminal 0
              (PaymentScreen.answers events PaymentScreen.init)) as [n|];
    destruct H as (-> & _); split; simpl; trivial; lia.
Qed.

(** X21: the screen's own flag does not cover requests that overlap: when
    two requests are in flight and both are answered with a
    terminal-equivalent status before the screen renders, the screen calls
    the completion callback at both answers; the page's guard lets only the
    first run the settlement. *)
Theorem overlapping_polls_call_back_twice p q :
  PaymentScreen.pollIsTerminal p = true ->
  PaymentScreen.pollIsTerminal q = true ->
  let s := PaymentScreen.run
             [PaymentScreen.Tick; PaymentScreen.Tick;
              PaymentScreen.Answer 0 p; PaymentScreen.Answer 0 q]
             PaymentScreen.init in
  PaymentScreen.onCompleteCalls s = [0%nat; 1%nat]
  /\ PaymentScreen.settlements s = [0%nat].
Proof.
  intros Hp Hq s. unfold s. cbn [PaymentScreen.run fold_left PaymentScreen.step].
  set (s2 := PaymentScreen.startPoll (PaymentScreen.startPoll PaymentScreen.init)).
  assert (H0 : PaymentScreen.inFlight s2 !! 0%nat = Some false) by reflexivity.
  rewrite (resolvePoll_result 0 p s2 false H0). cbv zeta. rewrite Hp.
  cbn [negb andb orb PaymentScreen.paymentProcessedRef PaymentScreen.onCompleteCalls
       PaymentScreen.settlements PaymentScreen.observed PaymentScreen.inFlight
       PaymentScreen.completionTriggered PaymentScreen.closureFlag
       PaymentScreen.status s2 PaymentScreen.startPoll PaymentScreen.init app take drop].
  match goal with
  | |- context [PaymentScreen.resolvePoll 0 q ?x] =>
      rewrite (resolvePoll_result 0 q x false eq_refl)
  end.
  cbv zeta. rewrite Hq. split; reflexivity.
Qed.

(** Scenario E with the two answers overlapping. *)
Lemma overlapping_polls_call_back_twice_witness :
  let s := PaymentScreen.run
             [PaymentScreen.Tick; PaymentScreen.Tick;
              PaymentScreen.Answer 0 (PaymentScreen.Status "Processing");
              PaymentScreen.Answer 0 (PaymentScreen.Status "Settled")]
             PaymentScreen.init in
  PaymentScreen.onCompleteCalls s = [0%nat; 1%nat]
  /\ PaymentScreen.settlements s = [0%nat].
Proof.
  exact (overlapping_polls_call_back_twice (PaymentScreen.Status "Processing")
           (PaymentScreen.Status "Settled") eq_refl eq_refl).
Defined.

(* ===================================================================== *)
(** * The client id and the invoice request of the checkout page *)
(* ===================================================================== *)

Lemma beforeComma_app ip rest :
  (forall c, In c (String.list_ascii_of_string ip) -> String c EmptyString <> ",") ->
  RateLimiter.beforeComma (ip ++ "," ++ rest) = ip.
Proof.
  induction ip as [|c ip IH]; intros Hno; [reflexivity|].
  change (RateLimiter.beforeComma (String c ip ++ "," ++ rest))
    with (if String.eqb (String c EmptyString) "," then EmptyString
          else String c (RateLimiter.beforeComma (ip ++ "," ++ rest))).
  destruct (String.eqb_spec (String c EmptyString) ",") as [E|_].
  - exfalso. apply (Hno c); [left; reflexivity | exact E].
  - f_equal. apply IH. intros c' Hc'. apply Hno. now right.
Qed.

(** X22: the client id is built from the first entry of the forwarded-for
    header only, and from the first 50 code units of the user agent: two
    requests that agree on those get the same id, whatever follows in
    either header. *)
Theorem client_id_reads_first_hop_and_agent_prefix ip rest rest' agent agent' :
  ip <> "" ->
  (forall c, In c (String.list_ascii_of_string ip) -> String c EmptyString <> ",") ->
  String.substring 0 50 agent = String.substring 0 50 agent' ->
  RateLimiter.getClientId (Some (ip ++ "," ++ rest)) (Some agent)
  = RateLimiter.getClientId (Some (ip ++ "," ++ rest')) (Some agent')
  /\ RateLimiter.getClientId (Some (ip ++ "," ++ rest)) (Some agent)
     = ip ++ ":" ++ String.substring 0 50 agent.
Proof.
  intros Hne Hno Hagent. unfold RateLimiter.getClientId. simpl.
  assert (Hnonempty : forall r, String.eqb (ip ++ "," ++ r) "" = false).
  { intros r. destruct ip; [contradiction|reflexivity]. }
  rewrite !Hnonempty, !beforeComma_app, Hagent by exact Hno. auto.
Qed.

Lemma client_id_reads_first_hop_and_agent_prefix_witness :
  RateLimiter.getClientId (Some "10.0.0.7, 172.16.0.1") (Some "curl/8.5.0")
  = RateLimiter.getClientId (Some "10.0.0.7,192.168.1.1") (Some "curl/8.5.0").
Proof.
  refine (proj1 (client_id_reads_first_hop_and_agent_prefix "10.0.0.7" " 172.16.0.1"
                   "192.168.1.1" "curl/8.5.0" "curl/8.5.0" _ _ eq_refl)).
  - discriminate.
  - intros c Hc. simpl in Hc.
    repeat (destruct Hc as [<-|Hc]; [discriminate|]). destruct Hc.
Defined.

(** X23: the invoice request the checkout page builds always names one
    currency, so the filter sent for it to the gateway holds exactly one
    code: the both-currencies default is not reachable from the page. *)
Theorem checkout_invoice_has_single_code rateLimit gateway totalPrice orderId
    selectedCrypto :
  Http.isAllowed rateLimit = true ->
  exists req code,
    snd (CreateInvoice.POST rateLimit gateway
           (Http.Validated (Checkout.invoiceRequest totalPrice orderId selectedCrypto)))
    = [req]
    /\ CreateInvoice.checkout_paymentMethods req = [code]
    /\ (code = "BTC" \/ code = "XMR")
    /\ CreateInvoice.req_amount req = totalPrice.
Proof.
  intros Hr. unfold CreateInvoice.POST. rewrite Hr. simpl.
  exists (CreateInvoice.invoiceRequest
            (Checkout.invoiceRequest totalPrice orderId selectedCrypto)).
  destruct selectedCrypto; [exists "BTC" | exists "XMR"];
    (split; [destruct (gateway _); reflexivity|]); simpl; auto.
Qed.

Lemma checkout_invoice_has_single_code_witness :
  exists req code,
    snd (CreateInvoice.POST Scenario.allowed Scenario.gatewayUp
           (Http.Validated
              (Checkout.invoiceRequest 75%float "order-1" CreateInvoice.monero)))
    = [req]
    /\ CreateInvoice.checkout_paymentMethods req = [code]
    /\ (code = "BTC" \/ code = "XMR")
    /\ CreateInvoice.req_amount req = 75%float.
Proof.
  exact (checkout_invoice_has_single_code Scenario.allowed Scenario.gatewayUp
           75%float "order-1" CreateInvoice.monero eq_refl).
Defined.
